(** * diffgen: a verification model of [cli/bin/diffgen.js]

    The command-line tool resolves a revision range (by tags, by commits or
    by a time interval), collects the git history of that range as text,
    sends it to a chat-completion endpoint and writes the generated
    Markdown to [CHANGELOG.generated.md] and to a small Docsify site.

    The embedding is shallow: every JavaScript function of the script is a
    Rocq function of the same name in a reader/state/exception monad [M].
    Everything the script does not compute itself (the answers typed by the
    user, the git binary, simple-git, chrono-node, the HTTP endpoint, the
    environment) is a field of a read-only [World]; the file system and the
    log of observable effects are the mutable [State]. *)

From Stdlib Require Import ZArith NArith Ascii String SpecFloat Lia Bool.
From Stdlib.Strings Require Import Byte.
From stdpp Require Import base option list gmap.

Local Open Scope N_scope.
Local Open Scope list_scope.

(** ** JavaScript strings

    A JavaScript string is a sequence of UTF-16 code units.  Literals of the
    script are written with [lit]; the double quote, which the script uses
    inside several literals, is the code unit 34. *)

Abbreviation jsstring := (list N).

Fixpoint lit (s : string) : jsstring :=
  match s with
  | EmptyString => []
  | String a r => N_of_ascii a :: lit r
  end.

Definition dq : jsstring := [34].
Definition nl : jsstring := [10].

(** [Array.prototype.join]. *)
Fixpoint join (sep : jsstring) (parts : list jsstring) : jsstring :=
  match parts with
  | [] => []
  | [p] => p
  | p :: rest => p ++ sep ++ join sep rest
  end.

(** ECMAScript [WhiteSpace] and [LineTerminator] code points, the set that
    [String.prototype.trim] strips: TAB, VT, FF, SP, NBSP, ZWNBSP, the
    category Zs, and LF, CR, LS, PS. *)
Definition isWhiteSpace (u : N) : bool :=
  (u =? 9) || (u =? 10) || (u =? 11) || (u =? 12) || (u =? 13) || (u =? 32)
  || (u =? 160) || (u =? 5760) || ((8192 <=? u) && (u <=? 8202))
  || (u =? 8232) || (u =? 8233) || (u =? 8239) || (u =? 8287)
  || (u =? 12288) || (u =? 65279).

Fixpoint trimStart (s : jsstring) : jsstring :=
  match s with
  | [] => []
  | u :: r => if isWhiteSpace u then trimStart r else s
  end.

Definition trimEnd (s : jsstring) : jsstring := rev (trimStart (rev s)).

Definition trim (s : jsstring) : jsstring := trimEnd (trimStart s).

(** [s.slice(0, n)]. *)
Definition slice0 (n : nat) (s : jsstring) : jsstring := take n s.

(** [s.split('\n')]: the pieces between line feeds; one piece more than
    there are line feeds. *)
Fixpoint split_lines (s : jsstring) : list jsstring :=
  match s with
  | [] => [[]]
  | u :: r =>
      if u =? 10 then [] :: split_lines r
      else match split_lines r with
           | [] => [[u]]
           | l :: ls => (u :: l) :: ls
           end
  end.

(** [Boolean(s)] for a string: the empty string is the only falsy one. *)
Definition truthy_str (s : jsstring) : bool :=
  match s with [] => false | _ => true end.

Fixpoint starts_with (p s : jsstring) : bool :=
  match p, s with
  | [], _ => true
  | _ :: _, [] => false
  | a :: p', b :: s' => (a =? b) && starts_with p' s'
  end.

(** [const [x] = s.split(sep)] for a non-empty separator: the part of [s]
    before the first occurrence of [sep], all of [s] when there is none. *)
Fixpoint split_first (sep s : jsstring) : jsstring :=
  match s with
  | [] => []
  | u :: r => if starts_with sep s then [] else u :: split_first sep r
  end.

(** [String(n)] for a non-negative integer: its decimal digits. *)
Fixpoint digits_pos (fuel : nat) (n : N) (acc : jsstring) : jsstring :=
  match fuel with
  | O => acc
  | S fuel' =>
      let acc' := (48 + n mod 10) :: acc in
      if n / 10 =? 0 then acc' else digits_pos fuel' (n / 10) acc'
  end.

Definition String_of_N (n : N) : jsstring :=
  digits_pos (S (N.to_nat (N.log2 n))) n [].

(** Decimal digits padded with zeros on the left to [width] places. *)
Definition pad0 (width : nat) (n : N) : jsstring :=
  let d := String_of_N n in
  replicate (width - length d) 48 ++ d.

(** [Buffer.from(s, 'utf8')]: the bytes [fs.writeFileSync(path, s, 'utf8')]
    stores.  A surrogate pair is one four-byte sequence; a lone surrogate is
    written as U+FFFD. *)
Definition byte_of (n : N) : byte := default Byte.x00 (Byte.of_N n).

Definition utf8_replacement : list byte :=
  [byte_of 239; byte_of 191; byte_of 189].

Fixpoint utf8 (s : jsstring) : list byte :=
  match s with
  | [] => []
  | u :: r =>
      if u <? 128 then byte_of u :: utf8 r
      else if u <? 2048 then
        byte_of (192 + u / 64) :: byte_of (128 + u mod 64) :: utf8 r
      else if (55296 <=? u) && (u <=? 56319) then
        match r with
        | v :: r' =>
            if (56320 <=? v) && (v <=? 57343) then
              let cp := 65536 + (u - 55296) * 1024 + (v - 56320) in
              byte_of (240 + cp / 262144)
                :: byte_of (128 + (cp / 4096) mod 64)
                :: byte_of (128 + (cp / 64) mod 64)
                :: byte_of (128 + cp mod 64) :: utf8 r'
            else utf8_replacement ++ utf8 r
        | [] => utf8_replacement
        end
      else if (56320 <=? u) && (u <=? 57343) then utf8_replacement ++ utf8 r
      else
        byte_of (224 + u / 4096)
          :: byte_of (128 + (u / 64) mod 64)
          :: byte_of (128 + u mod 64) :: utf8 r
  end.

(** ** Dates

    A [Date] holds a time value: milliseconds since the epoch, or NaN
    ([None]) for an invalid date.  [toISOString] is the ECMAScript
    algorithm; on an invalid date it throws a [RangeError] (see
    [Date_toISOString] below). *)
Abbreviation Date := (option Z).

Definition civil_from_days (z : Z) : Z * Z * Z :=
  let z := (z + 719468)%Z in
  let era := (z / 146097)%Z in
  let doe := (z - era * 146097)%Z in
  let yoe := ((doe - doe / 1460 + doe / 36524 - doe / 146096) / 365)%Z in
  let doy := (doe - (365 * yoe + yoe / 4 - yoe / 100))%Z in
  let mp := ((5 * doy + 2) / 153)%Z in
  let d := (doy - (153 * mp + 2) / 5 + 1)%Z in
  let m := (if mp <? 10 then mp + 3 else mp - 9)%Z in
  let y := (yoe + era * 400 + (if m <=? 2 then 1 else 0))%Z in
  (y, m, d).

Definition year_string (y : Z) : jsstring :=
  if ((0 <=? y) && (y <=? 9999))%Z then pad0 4 (Z.to_N y)
  else (if (y <? 0)%Z then lit "-" else lit "+") ++ pad0 6 (Z.abs_N y).

Definition toISOString (t : Z) : jsstring :=
  let day := (t / 86400000)%Z in
  let ms := (t mod 86400000)%Z in
  let '(y, m, d) := civil_from_days day in
  year_string y ++ lit "-" ++ pad0 2 (Z.to_N m) ++ lit "-" ++ pad0 2 (Z.to_N d)
    ++ lit "T" ++ pad0 2 (Z.to_N (ms / 3600000))
    ++ lit ":" ++ pad0 2 (Z.to_N ((ms / 60000) mod 60))
    ++ lit ":" ++ pad0 2 (Z.to_N ((ms / 1000) mod 60))
    ++ lit "." ++ pad0 3 (Z.to_N (ms mod 1000)) ++ lit "Z".

(** ** JavaScript values read from the completion response *)

#[warnings="-register-all"]
Inductive JSValue :=
| JUndefined
| JNull
| JBool (b : bool)
| JNum (x : spec_float)
| JStr (s : jsstring)
| JArr (items : list JSValue)
| JObj (fields : list (jsstring * JSValue)).

Fixpoint assoc (k : jsstring) (fields : list (jsstring * JSValue)) : JSValue :=
  match fields with
  | [] => JUndefined
  | (k', v) :: rest => if decide (k = k') then v else assoc k rest
  end.

(** [v?.name] for the property names the script reads ([choices],
    [message], [content]): none of them is defined on the prototypes of
    arrays, strings, numbers or booleans, so only an object can have one. *)
Definition opt_prop (v : JSValue) (name : jsstring) : JSValue :=
  match v with
  | JObj fields => assoc name fields
  | _ => JUndefined
  end.

(** [v?.[i]] for an index [i]. *)
Definition opt_index (v : JSValue) (i : nat) : JSValue :=
  match v with
  | JArr items => default JUndefined (items !! i)
  | JStr s => match s !! i with Some u => JStr [u] | None => JUndefined end
  | JObj fields => assoc (String_of_N (N.of_nat i)) fields
  | _ => JUndefined
  end.

(** [ToBoolean]. *)
Definition truthy (v : JSValue) : bool :=
  match v with
  | JUndefined | JNull => false
  | JBool b => b
  | JNum (S754_zero _) | JNum S754_nan => false
  | JNum _ => true
  | JStr s => truthy_str s
  | JArr _ | JObj _ => true
  end.

(** [a || b]. *)
Definition js_or (a b : JSValue) : JSValue := if truthy a then a else b.

Definition number_of_N (n : N) : spec_float :=
  binary_normalize 53 1024 (Z.of_N n) 0 false.

(** The double nearest to 0.2. *)
Definition number_0_2 : spec_float := S754_finite false 7205759403792794 (-55).

(** ** Exceptions, the world and the state *)

(** The errors of the [fs] module the model can raise. *)
Inductive Errno := EEXIST | EISDIR | ENOENT | ENOTDIR.

(** What a [throw] carries: the constructor name and the [message]; for an
    error of the file system its code, the system call and the path. *)
Inductive Exn :=
| Error (message : jsstring)
| TypeError (message : jsstring)
| RangeError (message : jsstring)
| SyntaxError (message : jsstring)
| SystemError (code : Errno) (syscall : jsstring) (path : jsstring).

#[global] Instance Errno_eq_dec : EqDecision Errno.
Proof. solve_decision. Defined.

#[global] Instance Exn_eq_dec : EqDecision Exn.
Proof. solve_decision. Defined.

Definition Errno_message (code : Errno) : jsstring :=
  match code with
  | EEXIST => lit "EEXIST: file already exists"
  | EISDIR => lit "EISDIR: illegal operation on a directory"
  | ENOENT => lit "ENOENT: no such file or directory"
  | ENOTDIR => lit "ENOTDIR: not a directory"
  end.

(** [err.message]. *)
Definition Exn_message (e : Exn) : jsstring :=
  match e with
  | Error m | TypeError m | RangeError m | SyntaxError m => m
  | SystemError code syscall p =>
      Errno_message code ++ lit ", " ++ syscall ++ lit " '" ++ p ++ lit "'"
  end.

(** One entry of simple-git's [log.all]. *)
Record LogEntry := { hash : jsstring; date : jsstring; message : jsstring }.

(** A finished child process: exit status and captured standard output. *)
Record ExecResult := { exit_status : Z; stdout : jsstring }.

Record Request := {
  url : jsstring;
  method : jsstring;
  headers : list (jsstring * jsstring);
  body : JSValue   (* the value handed to [JSON.stringify] *)
}.

(** A [fetch] response: [text] is what [res.text()] resolves to and [json]
    what [res.json()] settles to, a rejection when the body is not JSON. *)
Record Response := {
  status : N;
  statusText : jsstring;
  text : jsstring;
  json : Exn + JSValue
}.

(** [res.ok]: the status is in the range 200 to 299. *)
Definition ok (res : Response) : bool := (200 <=? status res) && (status res <=? 299).

Record World := {
  env_OPENAI_API_KEY : option jsstring;        (* process.env.OPENAI_API_KEY *)
  process_platform : jsstring;
  process_cwd : jsstring;
  module_dirname : jsstring;                   (* __dirname *)
  run : jsstring -> ExecResult;                (* one command run by /bin/sh *)
  spawn_error : option jsstring;               (* the child's 'error' event *)
  git_revparse : list jsstring -> Exn + jsstring;
  git_log : N -> Exn + list LogEntry;          (* gitInstance.log({maxCount}) *)
  chrono_parseDate : jsstring -> option Z;     (* null or a valid Date *)
  Date_parse : jsstring -> Date;               (* new Date(string) *)
  fetch : Request -> Exn + Response;
  inquirer_list : jsstring -> nat;   (* question name -> position picked *)
  inquirer_input : jsstring -> jsstring        (* question name -> text typed *)
}.

(** The observable effects, in the order they happen. *)
Inductive Event :=
| Asked (type name message : jsstring)
| Executed (command : jsstring)
| Fetched (req : Request)
| MadeDir (path : jsstring)
| Wrote (path : jsstring)
| Spawned (command : jsstring) (args : list jsstring)
| Logged (line : jsstring)        (* console.log(line) *)
| Complained (line : jsstring)    (* console.error(line) *)
| ComplainedOf (err : Exn).       (* console.error(err) for an error object *)

Record State := {
  files : gmap jsstring (list byte);
  dirs : gset jsstring;
  trace : list Event
}.

Definition is_fs_event (e : Event) : bool :=
  match e with MadeDir _ | Wrote _ => true | _ => false end.

Definition is_fetch (e : Event) : bool :=
  match e with Fetched _ => true | _ => false end.

Definition add_event (s : State) (e : Event) : State :=
  {| files := files s; dirs := dirs s; trace := trace s ++ [e] |}.

(** ** The monad

    A computation reads the world, updates the state and ends in one of
    three ways: it returns, it throws, or the process exits. *)

Inductive Outcome (A : Type) :=
| Return (a : A)
| Throw (e : Exn)
| Exit (code : Z).
Arguments Return {A} a.
Arguments Throw {A} e.
Arguments Exit {A} code.

Definition M (A : Type) : Type := World -> State -> Outcome A * State.

Definition ret {A} (a : A) : M A := fun _ s => (Return a, s).

Definition bind {A B} (m : M A) (k : A -> M B) : M B :=
  fun w s =>
    match m w s with
    | (Return a, s') => k a w s'
    | (Throw e, s') => (Throw e, s')
    | (Exit c, s') => (Exit c, s')
    end.

Definition throw {A} (e : Exn) : M A := fun _ s => (Throw e, s).

Definition process_exit {A} (code : Z) : M A := fun _ s => (Exit code, s).

(** [try { m } catch (e) { h e }]. *)
Definition try_catch {A} (m : M A) (h : Exn -> M A) : M A :=
  fun w s =>
    match m w s with
    | (Throw e, s') => h e w s'
    | r => r
    end.

Definition ask {A} (f : World -> A) : M A := fun w s => (Return (f w), s).

Definition emit (e : Event) : M unit := fun _ s => (Return tt, add_event s e).

(** A promise of a library: resolved with a value or rejected. *)
Definition settle {A} (r : Exn + A) : M A :=
  match r with inl e => throw e | inr a => ret a end.

Declare Scope js_scope.
Delimit Scope js_scope with js.
Notation "'let!' x ':=' m 'in' k" := (bind m (fun x => k))
  (at level 10, x pattern, m at level 100, k at level 200) : js_scope.
Notation "m ';;' k" := (bind m (fun _ => k))
  (at level 100, k at level 200, right associativity) : js_scope.
Local Open Scope js_scope.

Fixpoint mapM {A B} (f : A -> M B) (l : list A) : M (list B) :=
  match l with
  | [] => ret []
  | a :: rest => let! b := f a in let! bs := mapM f rest in ret (b :: bs)
  end.

(** ** Node and library primitives *)

Definition console_log (line : jsstring) : M unit := emit (Logged line).
Definition console_error (line : jsstring) : M unit := emit (Complained line).

(** [execSync(command)]: the command is run, its output is returned when it
    exits with status 0 and an [Error] is thrown otherwise. *)
Definition execSync (command : jsstring) : M jsstring :=
  emit (Executed command);;
  let! r := ask (fun w => run w command) in
  if (exit_status r =? 0)%Z then ret (stdout r)
  else throw (Error (lit "Command failed: " ++ command)).

(** [wc -l]: the number of line feeds, then a line feed. *)
Definition wc_l (input : jsstring) : jsstring :=
  String_of_N (N.of_nat (length (List.filter (N.eqb 10) input))) ++ nl.

(** [execSync(`${command} | wc -l`)]: the status of a shell pipeline is the
    status of its last command, so whatever [command] exits with, the
    pipeline exits with 0 and prints the line count of its output. *)
Definition execSync_wc_l (command : jsstring) : M jsstring :=
  emit (Executed (command ++ lit " | wc -l"));;
  let! r := ask (fun w => run w command) in
  ret (wc_l (stdout r)).

(** A choice of an inquirer list: the label shown and the value returned. *)
Record Choice := { name : jsstring; value : jsstring }.

(** [inquirer.prompt([{ type: 'list', name, message, choices }])]: the user
    picks one of the choices and its value is the answer.  A position
    outside the list stands for the user interrupting the prompt, which
    ends the process with status 130. *)
Definition prompt_list (qname message : jsstring) (choices : list Choice)
  : M jsstring :=
  emit (Asked (lit "list") qname message);;
  let! i := ask (fun w => inquirer_list w qname) in
  match choices !! i with
  | Some c => ret (value c)
  | None => process_exit 130
  end.

(** A question of type ['input'] or ['password']: the text typed. *)
Definition prompt_text (type qname message : jsstring) : M jsstring :=
  emit (Asked type qname message);;
  ask (fun w => inquirer_input w qname).

(** [date.toISOString()]. *)
Definition Date_toISOString (d : Date) : M jsstring :=
  match d with
  | Some t => ret (toISOString t)
  | None => throw (RangeError (lit "Invalid time value"))
  end.

(** [path.join(a, b)] on POSIX for an already normalised [a] and a relative
    [b] without dots: one separator between the two. *)
Definition path_join (a b : jsstring) : jsstring :=
  match last a with
  | None => b
  | Some u => if u =? 47 then a ++ b else a ++ lit "/" ++ b
  end.

(** The directory a path that does not end in a separator lies in. *)
Fixpoint drop_until_slash (s : jsstring) : jsstring :=
  match s with
  | [] => []
  | u :: r => if u =? 47 then s else drop_until_slash r
  end.

Fixpoint drop_slashes (s : jsstring) : jsstring :=
  match s with
  | [] => []
  | u :: r => if u =? 47 then drop_slashes r else s
  end.

Definition parent_dir (p : jsstring) : jsstring :=
  match rev (drop_slashes (drop_until_slash (rev p))) with
  | [] => if starts_with (lit "/") p then lit "/" else lit "."
  | d => d
  end.

(** *** The file system: regular files with their bytes, and directories *)

Definition exists_in (s : State) (p : jsstring) : bool :=
  bool_decide (p ∈ dirs s) || bool_decide (is_Some (files s !! p)).

Definition existsSync (p : jsstring) : M bool :=
  fun _ s => (Return (exists_in s p), s).

(** The error for a path whose parent is not a directory. *)
Definition no_parent (s : State) (syscall p : jsstring) : Exn :=
  if bool_decide (is_Some (files s !! parent_dir p))
  then SystemError ENOTDIR syscall p
  else SystemError ENOENT syscall p.

(** [fs.mkdirSync(p)]: fails when [p] exists or its parent is no directory. *)
Definition mkdirSync (p : jsstring) : M unit :=
  fun _ s =>
    if exists_in s p then (Throw (SystemError EEXIST (lit "mkdir") p), s)
    else if bool_decide (parent_dir p ∈ dirs s) then
      (Return tt, {| files := files s; dirs := {[p]} ∪ dirs s;
                     trace := trace s ++ [MadeDir p] |})
    else (Throw (no_parent s (lit "mkdir") p), s).

(** [fs.writeFileSync(p, data, 'utf8')]: creates or replaces the file;
    fails when [p] is a directory or its parent is no directory. *)
Definition writeFileSync (p data : jsstring) : M unit :=
  fun _ s =>
    if bool_decide (p ∈ dirs s) then (Throw (SystemError EISDIR (lit "open") p), s)
    else if bool_decide (parent_dir p ∈ dirs s) then
      (Return tt, {| files := <[p := utf8 data]> (files s); dirs := dirs s;
                     trace := trace s ++ [Wrote p] |})
    else (Throw (no_parent s (lit "open") p), s).

(** ** The script *)

(** The pair every strategy returns. *)
Record Range := { from : jsstring; to : jsstring }.

Definition ensureGitRepository : M bool :=
  try_catch
    (let! r := ask (fun w => git_revparse w [lit "--is-inside-work-tree"]) in
     settle r;;
     ret true)
    (fun _ => ret false).

(** *** selectByCommits *)

Definition commit_choice (entry : LogEntry) : M Choice :=
  let! d := ask (fun w => Date_parse w (date entry)) in
  let! iso := Date_toISOString d in
  ret {| name := slice0 7 (hash entry) ++ lit "  " ++ slice0 10 iso
                   ++ lit "  " ++ message entry;
         value := hash entry |}.

Definition ancestry_command (from to : jsstring) : jsstring :=
  lit "git rev-list --ancestry-path " ++ from ++ lit ".." ++ to.

Definition selectByCommits : M Range :=
  let! r := ask (fun w => git_log w 100) in
  let! log_all := settle r in
  if (length log_all =? 0)%nat then throw (Error (lit "No commits found."))
  else
    let! choices := mapM commit_choice log_all in
    let! from := prompt_list (lit "from")
                   (lit "Select the older commit (FROM):") choices in
    let! to := prompt_list (lit "to")
                 (lit "Select the newer commit (TO):") choices in
    if decide (from = to)
    then throw (Error (lit "FROM and TO commits cannot be the same."))
    else
      (* Ensure correct order (from older to newer) *)
      let! out := execSync_wc_l (ancestry_command from to) in
      let order := trim out in
      if decide (order = lit "0")
      then
        (* If not ancestor path, we still attempt diff as a generic range *)
        ret {| from := from; to := to |}
      else ret {| from := from; to := to |}.

(** *** selectByTags *)

Definition tags_command : jsstring :=
  lit "git for-each-ref --sort=-creatordate --format " ++ dq
    ++ lit "%(refname:short) | %(creatordate:short) | %(subject)" ++ dq
    ++ lit " refs/tags".

Definition tag_choice (line : jsstring) : Choice :=
  {| name := line; value := split_first (lit " | ") line |}.

Definition selectByTags : M Range :=
  let! raw := execSync tags_command in
  let lines := List.filter truthy_str (split_lines raw) in
  if (length lines =? 0)%nat then throw (Error (lit "No tags found."))
  else
    let tagChoices := map tag_choice lines in
    let! fromTag := prompt_list (lit "fromTag")
                      (lit "Select the older release (FROM):") tagChoices in
    let! toTag := prompt_list (lit "toTag")
                    (lit "Select the newer release (TO):") tagChoices in
    if decide (fromTag = toTag)
    then throw (Error (lit "FROM and TO tags cannot be the same."))
    else ret {| from := fromTag; to := toTag |}.

(** *** selectByTimeRange *)

Definition start_message : jsstring :=
  lit "Enter start date/time (e.g., " ++ dq ++ lit "2024-05-01" ++ dq
    ++ lit " or " ++ dq ++ lit "last Monday 9am" ++ dq ++ lit "): ".

Definition end_message : jsstring :=
  lit "Enter end date/time (e.g., " ++ dq ++ lit "2024-06-01" ++ dq
    ++ lit " or " ++ dq ++ lit "yesterday 5pm" ++ dq ++ lit "): ".

(** The boundary query: the last commit of HEAD before a timestamp. *)
Definition before_command (iso : jsstring) : jsstring :=
  lit "git rev-list -1 --before='" ++ iso ++ lit "' HEAD".

Definition selectByTimeRange : M Range :=
  let! start := prompt_text (lit "input") (lit "start") start_message in
  let! end_ := prompt_text (lit "input") (lit "end") end_message in
  let! startParsed := ask (fun w => chrono_parseDate w start) in
  let! endParsed := ask (fun w => chrono_parseDate w end_) in
  match startParsed, endParsed with
  | Some startParsed, Some endParsed =>
      let '(startParsed, endParsed) :=
        if (startParsed >? endParsed)%Z then (endParsed, startParsed)
        else (startParsed, endParsed) in
      let startISO := toISOString startParsed in
      let endISO := toISOString endParsed in
      (* Identify boundary commits around the time range *)
      let! out_to := execSync (before_command endISO) in
      let to := trim out_to in
      let! out_base := execSync (before_command startISO) in
      let baseBeforeStart := trim out_base in
      if negb (truthy_str to) || negb (truthy_str baseBeforeStart)
      then throw (Error (lit "Could not find commits for the given time range."))
      else ret {| from := baseBeforeStart; to := to |}
  | _, _ =>
      throw (Error (lit "Could not parse dates. Please try again with clearer input."))
  end.

(** *** collectGitHistoryText *)

Definition logFormat : jsstring := lit "%h%x09%an%x09%ad%x09%s%x0a%b".

Definition log_command (from to : jsstring) : jsstring :=
  lit "git log " ++ from ++ lit ".." ++ to ++ lit " --date=iso --pretty=format:"
    ++ dq ++ logFormat ++ dq.

Definition files_command (from to : jsstring) : jsstring :=
  lit "git diff --name-status " ++ from ++ lit ".." ++ to.

Definition stats_command (from to : jsstring) : jsstring :=
  lit "git diff --stat " ++ from ++ lit ".." ++ to.

(** [a || b] on strings. *)
Definition str_or (a b : jsstring) : jsstring := if truthy_str a then a else b.

Definition collectGitHistoryText (range : Range) : M jsstring :=
  let from := from range in
  let to := to range in
  let! logText := execSync (log_command from to) in
  let! filesText := execSync (files_command from to) in
  let! statsText := execSync (stats_command from to) in
  let summary := join nl [
    lit "# Git History";
    [];
    lit "## Commit Log";
    str_or (trim logText) (lit "(No commits)");
    [];
    lit "## Changed Files (name-status)";
    str_or (trim filesText) (lit "(No file changes)");
    [];
    lit "## Diff Stats";
    str_or (trim statsText) (lit "(No stats)")
  ] in
  ret summary.

(** *** callAzureOpenAI *)

Definition rsquo : jsstring := [8217].
Definition ldquo : jsstring := [8220].
Definition rdquo : jsstring := [8221].

Definition basePrompt (historyMarkdown : jsstring) : jsstring :=
  join nl [
    lit "[INSTRUCTIONS]";
    lit "Task: Generate a changelog entry from the Git history. The response should strictly follow the structure below. Use only the information from the Git history.";
    [];
    lit "Output rules:";
    lit "- Output ONLY valid Markdown (no code block markers).";
    lit "- The structure must follow exactly this format:";
    [];
    lit "# <Heading summarizing the change>";
    lit "(Heading should be short and clear, e.g., " ++ dq
      ++ lit "Adds Payout Details embedded component to the Account" ++ dq ++ lit ")";
    [];
    lit "## What" ++ rsquo ++ lit "s new";
    lit "<Brief description of what" ++ rsquo
      ++ lit "s newly introduced. Focus on new functionality, not internal details.>";
    [];
    lit "## Impact";
    lit "<Explain the practical effect on users, developers, or systems. Answer "
      ++ ldquo ++ lit "why this matters." ++ rdquo ++ lit ">";
    [];
    lit "## Changes";
    lit "<List the most essential code changes, snippets, or file modifications very concisely. Avoid unnecessary detail.>";
    lit "List all the files which are changes and what changes were made";
    lit "Please give code snippets here, difference between the files, the markdown file should be as descriptive as possible";
    lit "---";
    lit "Git History:";
    historyMarkdown
  ].

Definition endpoint : jsstring :=
  lit "https://salesassist.openai.azure.com/openai/deployments/gpt-4o-mini/chat/completions?api-version=2024-02-15-preview".

Definition payload (historyMarkdown : jsstring) : JSValue :=
  JObj [
    (lit "messages",
     JArr [JObj [(lit "role", JStr (lit "user"));
                 (lit "content", JStr (basePrompt historyMarkdown))]]);
    (lit "temperature", JNum number_0_2);
    (lit "max_tokens", JNum (number_of_N 1200))
  ].

Definition completion_request (key historyMarkdown : jsstring) : Request :=
  {| url := endpoint;
     method := lit "POST";
     headers := [(lit "Content-Type", lit "application/json");
                 (lit "api-key", key)];
     body := payload historyMarkdown |}.

(** [await fetch(url, init)].  The script installs node-fetch as [fetch] on
    a Node without one; either way [fetch] is the world's. *)
Definition do_fetch (req : Request) : M Response :=
  emit (Fetched req);;
  let! r := ask (fun w => fetch w req) in
  settle r.

(** [!key] for a key that is [undefined] or a string. *)
Definition key_missing (key : option jsstring) : bool :=
  match key with
  | None => true
  | Some k => negb (truthy_str k)
  end.

(** [data?.choices?.[0]?.message?.content]. *)
Definition content_of (data : JSValue) : JSValue :=
  opt_prop (opt_prop (opt_index (opt_prop data (lit "choices")) 0)
                     (lit "message")) (lit "content").

Definition callAzureOpenAI (historyMarkdown : jsstring) : M jsstring :=
  let! apiKey := ask env_OPENAI_API_KEY in
  let! key :=
    (if key_missing apiKey then
       let! a := prompt_text (lit "password") (lit "apiKey")
                   (lit "Enter OPENAI_API_KEY:") in
       ret (Some a)
     else ret apiKey) in
  if key_missing key then throw (Error (lit "OPENAI_API_KEY is required."))
  else
    let! res := do_fetch (completion_request (default [] key) historyMarkdown) in
    if negb (ok res) then
      let text := text res in
      throw (Error (lit "Azure OpenAI error: " ++ String_of_N (status res)
                      ++ lit " " ++ statusText res ++ lit " - " ++ text))
    else
      let! data := settle (json res) in
      let content := js_or (content_of data) (JStr []) in
      match content with
      | JStr c =>
          if negb (truthy_str (trim c))
          then throw (Error (lit "Received empty content from the model."))
          else ret c
      | _ => throw (TypeError (lit "content.trim is not a function"))
      end.

(** *** createDocsifySite *)

Definition index_html : jsstring :=
  join nl [
    lit "<!DOCTYPE html>";
    lit "<html lang=" ++ dq ++ lit "en" ++ dq ++ lit ">";
    lit "<head>";
    lit "  <meta charset=" ++ dq ++ lit "UTF-8" ++ dq ++ lit " />";
    lit "  <meta http-equiv=" ++ dq ++ lit "X-UA-Compatible" ++ dq
      ++ lit " content=" ++ dq ++ lit "IE=edge" ++ dq ++ lit " />";
    lit "  <meta name=" ++ dq ++ lit "viewport" ++ dq ++ lit " content=" ++ dq
      ++ lit "width=device-width, initial-scale=1.0" ++ dq ++ lit " />";
    lit "  <title>Changelog</title>";
    lit "  <link rel=" ++ dq ++ lit "stylesheet" ++ dq ++ lit " href=" ++ dq
      ++ lit "//cdn.jsdelivr.net/npm/docsify@4/lib/themes/vue.css" ++ dq ++ lit " />";
    lit "</head>";
    lit "<body>";
    lit "  <div id=" ++ dq ++ lit "app" ++ dq ++ lit "></div>";
    lit "  <script>";
    lit "    window.$docsify = { name: " ++ dq ++ lit "Changelog" ++ dq
      ++ lit ", loadSidebar: false, subMaxLevel: 2 };";
    lit "  </script>";
    lit "  <script src=" ++ dq ++ lit "//cdn.jsdelivr.net/npm/docsify@4" ++ dq
      ++ lit "></script>";
    lit "</body>";
    lit "</html>"
  ].

Definition site_dir (rootDir : jsstring) : jsstring :=
  path_join rootDir (lit ".diffgen_site").
Definition readme_path (rootDir : jsstring) : jsstring :=
  path_join (site_dir rootDir) (lit "README.md").
Definition index_html_path (rootDir : jsstring) : jsstring :=
  path_join (site_dir rootDir) (lit "index.html").
Definition changelog_path (repoRoot : jsstring) : jsstring :=
  path_join repoRoot (lit "CHANGELOG.generated.md").

Definition createDocsifySite (rootDir markdownContent : jsstring) : M jsstring :=
  let siteDir := site_dir rootDir in
  let! there := existsSync siteDir in
  (if there then ret tt else mkdirSync siteDir);;
  let readmePath := readme_path rootDir in
  writeFileSync readmePath markdownContent;;
  let indexHtmlPath := index_html_path rootDir in
  let! shell_there := existsSync indexHtmlPath in
  (if shell_there then ret tt else writeFileSync indexHtmlPath index_html);;
  ret siteDir.

(** *** resolveDocsifyBin and serveDocsify *)

Fixpoint first_existing (candidates : list jsstring) : M (option jsstring) :=
  match candidates with
  | [] => ret None
  | candidate :: rest =>
      let! there := existsSync candidate in
      if there then ret (Some candidate) else first_existing rest
  end.

Definition join_all (parts : list jsstring) : jsstring :=
  match parts with
  | [] => lit "."
  | p :: rest => fold_left path_join rest p
  end.

Definition resolveDocsifyBin : M (option jsstring) :=
  let! platform := ask process_platform in
  let! dirname := ask module_dirname in
  let! cwd := ask process_cwd in
  let isWin := bool_decide (platform = lit "win32") in
  let cmdName := if isWin then lit "docsify.cmd" else lit "docsify" in
  let candidates := [
    (* Prefer the CLI's own bundled binary *)
    join_all [parent_dir dirname; lit "node_modules"; lit ".bin"; cmdName];
    join_all [parent_dir dirname; lit "node_modules"; lit "docsify-cli";
              lit "bin"; lit "docsify"];
    (* Fallback: current working directory's local install *)
    join_all [cwd; lit "node_modules"; lit ".bin"; cmdName]
  ] in
  first_existing candidates.

Definition spawn (command : jsstring) (args : list jsstring) : M unit :=
  emit (Spawned command args).

Definition serveDocsify (siteDir : jsstring) (port : N) : M unit :=
  let! resolved := resolveDocsifyBin in
  let args := [lit "serve"; siteDir; lit "-p"; String_of_N port] in
  match resolved with
  | Some bin => spawn bin args
  | None =>
      (* Last resort: rely on global docsify in PATH *)
      spawn (lit "docsify") args
  end;;
  console_log (nl ++ lit "Serving changelog at http://localhost:"
                 ++ String_of_N port ++ lit " (press Ctrl+C to stop)" ++ nl);;
  (* the child's 'error' event is delivered after the caller has finished *)
  let! failed := ask spawn_error in
  match failed with
  | Some err_message =>
      console_error (lit "Failed to start docsify serve: " ++ err_message);;
      console_error (lit "Tip: install globally with " ++ dq
                       ++ lit "npm i -g docsify-cli" ++ dq ++ lit " or run:" ++ nl
                       ++ lit "  npx docsify-cli serve " ++ siteDir
                       ++ lit " -p " ++ String_of_N port)
  | None => ret tt
  end.

(** *** main *)

Definition mode_choices : list Choice := [
  {| name := lit "Generate change log between different versions";
     value := lit "tags" |};
  {| name := lit "Generate change log between different commits";
     value := lit "commits" |};
  {| name := lit "Generate change log between a time interval";
     value := lit "time" |}
].

Definition main : M unit :=
  let! inside := ensureGitRepository in
  (if inside then ret tt
   else
     console_error (lit "This tool must be run inside a Git repository.");;
     process_exit 1);;
  let! top := execSync (lit "git rev-parse --show-toplevel") in
  let repoRoot := trim top in
  let! mode := prompt_list (lit "mode") (lit "What would you like to generate?")
                 mode_choices in
  let! range :=
    (if decide (mode = lit "tags") then selectByTags
     else if decide (mode = lit "commits") then selectByCommits
     else selectByTimeRange) in
  let! historyMarkdown := collectGitHistoryText range in
  let! changelogMarkdown := callAzureOpenAI historyMarkdown in
  let outPath := changelog_path repoRoot in
  writeFileSync outPath changelogMarkdown;;
  console_log (nl ++ lit "Changelog written to: " ++ outPath);;
  let! siteDir := createDocsifySite repoRoot changelogMarkdown in
  serveDocsify siteDir 3000.

(** The last statement of the script:
    [main().catch((err) => { console.error(err.message || err); process.exit(1); })]. *)
Definition script : M unit :=
  try_catch main
    (fun err =>
       (if truthy_str (Exn_message err) then console_error (Exn_message err)
        else emit (ComplainedOf err));;
       process_exit 1).

(** ** Vocabulary of the statements *)

(** Running a computation: its outcome and the state it leaves. *)
Definition outcome {A} (m : M A) (w : World) (s : State) : Outcome A := fst (m w s).
Definition after {A} (m : M A) (w : World) (s : State) : State := snd (m w s).

(** Two computations that behave alike in every world and state. *)
Definition same_run {A} (m m' : M A) : Prop := forall w s, m w s = m' w s.

(** [s'] is [s] after the events [evs], with the same files and
    directories. *)
Definition extends_trace (s : State) (evs : list Event) (s' : State) : Prop :=
  s' = {| files := files s; dirs := dirs s; trace := trace s ++ evs |}.

(** A computation that never creates a directory or writes a file, and
    that ends the process, if it does, with a failure status. *)
Definition read_only {A} (m : M A) : Prop :=
  forall w s, exists evs,
    extends_trace s evs (after m w s)
    /\ existsb is_fs_event evs = false
    /\ forall c, outcome m w s = Exit c -> c <> 0%Z.

(** [main] cut at its first write.  [generate] is [main] up to and including
    the completion call and yields the repository root and the generated
    Markdown; [publish] is the rest ([main_is_generate_then_publish]). *)
Definition generate : M (jsstring * jsstring) :=
  let! inside := ensureGitRepository in
  (if inside then ret tt
   else
     console_error (lit "This tool must be run inside a Git repository.");;
     process_exit 1);;
  let! top := execSync (lit "git rev-parse --show-toplevel") in
  let repoRoot := trim top in
  let! mode := prompt_list (lit "mode") (lit "What would you like to generate?")
                 mode_choices in
  let! range :=
    (if decide (mode = lit "tags") then selectByTags
     else if decide (mode = lit "commits") then selectByCommits
     else selectByTimeRange) in
  let! historyMarkdown := collectGitHistoryText range in
  let! changelogMarkdown := callAzureOpenAI historyMarkdown in
  ret (repoRoot, changelogMarkdown).

Definition publish (repoRoot changelogMarkdown : jsstring) : M unit :=
  let outPath := changelog_path repoRoot in
  writeFileSync outPath changelogMarkdown;;
  console_log (nl ++ lit "Changelog written to: " ++ outPath);;
  let! siteDir := createDocsifySite repoRoot changelogMarkdown in
  serveDocsify siteDir 3000.

(** The spec's names for the errors of the script. *)
Definition NoCommitsFound : Exn := Error (lit "No commits found.").
Definition NoTagsFound : Exn := Error (lit "No tags found.").
Definition InvalidSelection_commits : Exn :=
  Error (lit "FROM and TO commits cannot be the same.").
Definition InvalidSelection_tags : Exn :=
  Error (lit "FROM and TO tags cannot be the same.").
Definition DateParseFailure : Exn :=
  Error (lit "Could not parse dates. Please try again with clearer input.").
Definition NoRevisionForTimestamp : Exn :=
  Error (lit "Could not find commits for the given time range.").
Definition MissingCredential : Exn := Error (lit "OPENAI_API_KEY is required.").
Definition EmptyCompletion : Exn := Error (lit "Received empty content from the model.").
Definition CompletionServiceError (res : Response) : Exn :=
  Error (lit "Azure OpenAI error: " ++ String_of_N (status res) ++ lit " "
           ++ statusText res ++ lit " - " ++ text res).

Definition is_InvalidSelection (e : Exn) : bool :=
  bool_decide (e = InvalidSelection_commits)
  || bool_decide (e = InvalidSelection_tags).

(** The masked question for the key. *)
Definition key_question : Event :=
  Asked (lit "password") (lit "apiKey") (lit "Enter OPENAI_API_KEY:").

(** The key [callAzureOpenAI] works with: the environment variable, or
    what the user types when the variable is unset or empty. *)
Definition credential (w : World) : option jsstring :=
  if key_missing (env_OPENAI_API_KEY w)
  then Some (inquirer_input w (lit "apiKey"))
  else env_OPENAI_API_KEY w.

(** The request [callAzureOpenAI] sends for a history text. *)
Definition request_of (w : World) (historyMarkdown : jsstring) : Request :=
  completion_request (default [] (credential w)) historyMarkdown.

(** The content field of a response body is missing, falsy, empty or made
    of white space only. *)
Definition blank_content (v : JSValue) : bool :=
  match v with
  | JStr c => forallb isWhiteSpace c
  | _ => negb (truthy v)
  end.

(** The events a run added to the trace. *)
Definition new_events (s s' : State) : list Event :=
  drop (length (trace s)) (trace s').

(** What [path_join a] puts in front of its second argument. *)
Definition join_prefix (a : jsstring) : jsstring :=
  match last a with
  | None => []
  | Some u => if u =? 47 then a else a ++ lit "/"
  end.

(** The questions of the three strategies. *)
Definition list_question (qname msg : jsstring) : Event := Asked (lit "list") qname msg.
Definition from_question : Event :=
  list_question (lit "from") (lit "Select the older commit (FROM):").
Definition to_question : Event :=
  list_question (lit "to") (lit "Select the newer commit (TO):").
Definition fromTag_question : Event :=
  list_question (lit "fromTag") (lit "Select the older release (FROM):").
Definition toTag_question : Event :=
  list_question (lit "toTag") (lit "Select the newer release (TO):").
Definition start_question : Event := Asked (lit "input") (lit "start") start_message.
Definition end_question : Event := Asked (lit "input") (lit "end") end_message.

(** The tags offered to the user. *)
Definition tag_choices (w : World) : list Choice :=
  map tag_choice (List.filter truthy_str (split_lines (stdout (run w tags_command)))).

(** The revision an answer to a list question stands for. *)
Definition picked (choices : list Choice) (position : nat) : option jsstring :=
  value <$> choices !! position.

(** The choice shown for a commit whose date is valid. *)
Definition commit_label (w : World) (entry : LogEntry) : Choice :=
  {| name := slice0 7 (hash entry) ++ lit "  "
       ++ slice0 10 (toISOString (default 0%Z (Date_parse w (date entry))))
       ++ lit "  " ++ message entry;
     value := hash entry |}.

(** The output of the boundary query for a timestamp, trimmed. *)
Definition last_commit_before (w : World) (t : Z) : jsstring :=
  trim (stdout (run w (before_command (toISOString t)))).

(** The layout of a history text: the title, then every section as a blank
    line, its heading line and its body. *)
Definition headed_sections (sections : list (jsstring * jsstring)) : jsstring :=
  lit "# Git History"
    ++ concat (map (fun sec => nl ++ nl ++ lit "## " ++ fst sec ++ nl ++ snd sec)
                   sections).

(** The lines of a text that are second-level Markdown headings. *)
Definition is_heading (line : jsstring) : bool := starts_with (lit "## ") line.

Definition heading_lines (text : jsstring) : list jsstring :=
  List.filter is_heading (split_lines text).

(** What a section shows for the output of its query. *)
Definition section_body (output placeholder : jsstring) : jsstring :=
  match trim output with
  | [] => placeholder
  | shown => shown
  end.

(** ** A sample repository, user and service

    A repository at [/repo] with two commits and the tags [v1.0.0] and
    [v1.1.0]; the newer commit adds [a.txt]. *)

Definition old_commit : jsstring := lit "1a2b3c4d5e6f708192a3b4c5d6e7f8091a2b3c4d".
Definition new_commit : jsstring := lit "9f8e7d6c5b4a39281706f5e4d3c2b1a098765432".

Definition sample_log : list LogEntry := [
  {| hash := new_commit; date := lit "2024-05-02T10:00:00+00:00";
     message := lit "Add a.txt" |};
  {| hash := old_commit; date := lit "2024-04-30T09:00:00+00:00";
     message := lit "Initial commit" |}
].

Definition exited (code : Z) (output : jsstring) : ExecResult :=
  {| exit_status := code; stdout := output |}.

Definition sample_run (command : jsstring) : ExecResult :=
  if decide (command = lit "git rev-parse --show-toplevel")
  then exited 0 (lit "/repo" ++ nl)
  else if decide (command = tags_command)
  then exited 0 (lit "v1.1.0 | 2024-05-02 | Release 1.1.0" ++ nl
                   ++ lit "v1.0.0 | 2024-04-30 | Release 1.0.0" ++ nl)
  else if decide (command = before_command (lit "2024-05-01T00:00:00.000Z"))
  then exited 0 (old_commit ++ nl)
  else if decide (command = before_command (lit "2024-06-01T00:00:00.000Z"))
  then exited 0 (new_commit ++ nl)
  else if decide (command = before_command (lit "2024-07-01T00:00:00.000Z"))
  then exited 0 (new_commit ++ nl)
  else if starts_with (lit "git rev-list --ancestry-path ") command
  then exited 0 (new_commit ++ nl)
  else if starts_with (lit "git log ") command
  then exited 0 (lit "9f8e7d6" ++ [9] ++ lit "Ada" ++ [9]
                   ++ lit "2024-05-02 10:00:00 +0000" ++ [9] ++ lit "Add a.txt" ++ nl)
  else if starts_with (lit "git diff --name-status ") command
  then exited 0 (lit "A" ++ [9] ++ lit "a.txt" ++ nl)
  else if starts_with (lit "git diff --stat ") command
  then exited 0 (lit " a.txt | 1 +" ++ nl
                   ++ lit " 1 file changed, 1 insertion(+)" ++ nl)
  else exited 128 [].

Definition sample_dates (s : jsstring) : option Z :=
  if decide (s = lit "2024-05-01") then Some 1714521600000%Z
  else if decide (s = lit "2024-06-01") then Some 1717200000000%Z
  else if decide (s = lit "2024-07-01") then Some 1719792000000%Z
  else if decide (s = lit "2024-05-02T10:00:00+00:00") then Some 1714644000000%Z
  else if decide (s = lit "2024-04-30T09:00:00+00:00") then Some 1714467600000%Z
  else None.

Definition sample_changelog : jsstring :=
  lit "# Adds a.txt" ++ nl ++ nl ++ lit "## What" ++ rsquo ++ lit "s new" ++ nl
    ++ lit "A new file." ++ nl.

Definition completion (content : JSValue) : JSValue :=
  JObj [(lit "choices", JArr [JObj [(lit "message",
           JObj [(lit "role", JStr (lit "assistant")); (lit "content", content)])]])].

Definition responded (code : N) (reason body_text : jsstring) (data : Exn + JSValue)
  : Response :=
  {| status := code; statusText := reason; text := body_text; json := data |}.

Definition sample_response : Response :=
  responded 200 (lit "OK") (lit "{...}") (inr (completion (JStr sample_changelog))).

Definition sample_list (qname : jsstring) : nat :=
  if decide (qname = lit "from") then 1%nat
  else if decide (qname = lit "fromTag") then 1%nat
  else 0%nat.

Definition sample_input (qname : jsstring) : jsstring :=
  if decide (qname = lit "start") then lit "2024-05-01"
  else if decide (qname = lit "end") then lit "2024-06-01"
  else lit "typed-key".

Definition sample_world : World := {|
  env_OPENAI_API_KEY := Some (lit "env-key");
  process_platform := lit "darwin";
  process_cwd := lit "/repo";
  module_dirname := lit "/opt/diffgen/cli/bin";
  run := sample_run;
  spawn_error := None;
  git_revparse := fun _ => inr (lit "true");
  git_log := fun _ => inr sample_log;
  chrono_parseDate := sample_dates;
  Date_parse := sample_dates;
  fetch := fun _ => inr sample_response;
  inquirer_list := sample_list;
  inquirer_input := sample_input
|}.

Definition sample_state : State :=
  {| files := ∅; dirs := {[ lit "/repo" ]}; trace := [] |}.

(** The same world with one collaborator replaced. *)
Definition with_env (w : World) (key : option jsstring) : World := {|
  env_OPENAI_API_KEY := key;
  process_platform := process_platform w; process_cwd := process_cwd w;
  module_dirname := module_dirname w; run := run w;
  spawn_error := spawn_error w; git_revparse := git_revparse w;
  git_log := git_log w; chrono_parseDate := chrono_parseDate w;
  Date_parse := Date_parse w; fetch := fetch w;
  inquirer_list := inquirer_list w; inquirer_input := inquirer_input w
|}.

Definition with_run (w : World) (sh : jsstring -> ExecResult) : World := {|
  env_OPENAI_API_KEY := env_OPENAI_API_KEY w;
  process_platform := process_platform w; process_cwd := process_cwd w;
  module_dirname := module_dirname w; run := sh;
  spawn_error := spawn_error w; git_revparse := git_revparse w;
  git_log := git_log w; chrono_parseDate := chrono_parseDate w;
  Date_parse := Date_parse w; fetch := fetch w;
  inquirer_list := inquirer_list w; inquirer_input := inquirer_input w
|}.

Definition with_fetch (w : World) (service : Request -> Exn + Response) : World := {|
  env_OPENAI_API_KEY := env_OPENAI_API_KEY w;
  process_platform := process_platform w; process_cwd := process_cwd w;
  module_dirname := module_dirname w; run := run w;
  spawn_error := spawn_error w; git_revparse := git_revparse w;
  git_log := git_log w; chrono_parseDate := chrono_parseDate w;
  Date_parse := Date_parse w; fetch := service;
  inquirer_list := inquirer_list w; inquirer_input := inquirer_input w
|}.

Definition with_list (w : World) (picks : jsstring -> nat) : World := {|
  env_OPENAI_API_KEY := env_OPENAI_API_KEY w;
  process_platform := process_platform w; process_cwd := process_cwd w;
  module_dirname := module_dirname w; run := run w;
  spawn_error := spawn_error w; git_revparse := git_revparse w;
  git_log := git_log w; chrono_parseDate := chrono_parseDate w;
  Date_parse := Date_parse w; fetch := fetch w;
  inquirer_list := picks; inquirer_input := inquirer_input w
|}.

Definition with_input (w : World) (typed : jsstring -> jsstring) : World := {|
  env_OPENAI_API_KEY := env_OPENAI_API_KEY w;
  process_platform := process_platform w; process_cwd := process_cwd w;
  module_dirname := module_dirname w; run := run w;
  spawn_error := spawn_error w; git_revparse := git_revparse w;
  git_log := git_log w; chrono_parseDate := chrono_parseDate w;
  Date_parse := Date_parse w; fetch := fetch w;
  inquirer_list := inquirer_list w; inquirer_input := typed
|}.

(** The same user typing the two dates in the other order. *)
Definition swap_dates (w : World) : World :=
  with_input w (fun qname =>
    if decide (qname = lit "start") then inquirer_input w (lit "end")
    else if decide (qname = lit "end") then inquirer_input w (lit "start")
    else inquirer_input w qname).

(** The sample repository when the message of the newer commit is written
    in Markdown, with headings of its own: [git log] prints the body of a
    message as it is ([%b] of the format), after the line of the subject. *)
Definition markdown_log : jsstring :=
  lit "9f8e7d6" ++ [9] ++ lit "Ada" ++ [9] ++ lit "2024-05-02 10:00:00 +0000"
    ++ [9] ++ lit "Add a.txt" ++ nl
    ++ lit "See below." ++ nl
    ++ nl
    ++ lit "## Diff Stats" ++ nl
    ++ lit "One file." ++ nl
    ++ nl
    ++ lit "## Summary" ++ nl
    ++ lit "Adds a.txt." ++ nl.

Definition markdown_run (command : jsstring) : ExecResult :=
  if starts_with (lit "git log ") command then exited 0 markdown_log
  else sample_run command.

Definition markdown_world : World := with_run sample_world markdown_run.

(** ** Vocabulary of the further properties *)

(** A text made of line feeds only (none included). *)
Definition only_line_feeds (s : jsstring) : bool := forallb (N.eqb 10) s.

(** What [git for-each-ref] prints with the format of [tags_command]: for
    every tag one line with its name, the separator and the rest (date,
    separator, subject), ended by a line feed. *)
Definition tag_line (entry : jsstring * jsstring) : jsstring :=
  fst entry ++ lit " | " ++ snd entry.

Definition tag_listing (entries : list (jsstring * jsstring)) : jsstring :=
  concat (map (fun entry => tag_line entry ++ nl) entries).

(** The answer of simple-git to the question of [ensureGitRepository]. *)
Definition inside_work_tree (w : World) : bool :=
  match git_revparse w [lit "--is-inside-work-tree"] with
  | inr _ => true
  | inl _ => false
  end.

Definition not_a_repository_message : jsstring :=
  lit "This tool must be run inside a Git repository.".

(** The sample world with another date parser. *)
Definition with_chrono (w : World) (parse : jsstring -> option Z) : World := {|
  env_OPENAI_API_KEY := env_OPENAI_API_KEY w;
  process_platform := process_platform w; process_cwd := process_cwd w;
  module_dirname := module_dirname w; run := run w;
  spawn_error := spawn_error w; git_revparse := git_revparse w;
  git_log := git_log w; chrono_parseDate := parse;
  Date_parse := Date_parse w; fetch := fetch w;
  inquirer_list := inquirer_list w; inquirer_input := inquirer_input w
|}.

(** A user who asks for the changes since 1 January 2024, a date before the
    first commit of the sample repository: git finds no commit before it. *)
Definition since_new_year : World :=
  with_run
    (with_chrono
       (with_input sample_world (fun qname =>
          if decide (qname = lit "start") then lit "2024-01-01" else lit "2024-06-01"))
       (fun s => if decide (s = lit "2024-01-01") then Some 1704067200000%Z
                 else sample_dates s))
    (fun command =>
       if decide (command = before_command (lit "2024-01-01T00:00:00.000Z"))
       then exited 0 []
       else sample_run command).

(** The error [execSync] throws for a command. *)
Definition CommandFailed (command : jsstring) : Exn :=
  Error (lit "Command failed: " ++ command).

(** The first of some commands that does not exit with status 0. *)
Fixpoint first_failing (w : World) (commands : list jsstring) : option jsstring :=
  match commands with
  | [] => None
  | command :: rest =>
      if (exit_status (run w command) =? 0)%Z then first_failing w rest
      else Some command
  end.

(** The commands up to and including the first that fails. *)
Fixpoint run_until_failure (w : World) (commands : list jsstring) : list jsstring :=
  match commands with
  | [] => []
  | command :: rest =>
      command :: (if (exit_status (run w command) =? 0)%Z
                  then run_until_failure w rest else [])
  end.

(** The three queries of the history collector, in the order of the
    source. *)
Definition history_commands (range : Range) : list jsstring :=
  [log_command (from range) (to range);
   files_command (from range) (to range);
   stats_command (from range) (to range)].

(** The fixed part of the prompt: everything before the history. *)
Definition instructions : jsstring := basePrompt [].

(** The value of a header of a request. *)
Definition header (req : Request) (field : jsstring) : option jsstring :=
  snd <$> List.find (fun h => bool_decide (fst h = field)) (headers req).

(** The prompt a request carries: [messages[0].content] of its body. *)
Definition prompt_of (req : Request) : JSValue :=
  opt_prop (opt_index (opt_prop (body req) (lit "messages")) 0) (lit "content").

(** A directory path as git and Node print it: the root, or a path that
    does not end in a separator. *)
Definition normalised (a : jsstring) : bool :=
  bool_decide (a = lit "/")
  || match last a with Some u => negb (u =? 47) | None => false end.

(** The places where [resolveDocsifyBin] looks, in its order. *)
Definition docsify_name (w : World) : jsstring :=
  if bool_decide (process_platform w = lit "win32")
  then lit "docsify.cmd" else lit "docsify".

Definition docsify_candidates (w : World) : list jsstring := [
  join_all [parent_dir (module_dirname w); lit "node_modules"; lit ".bin";
            docsify_name w];
  join_all [parent_dir (module_dirname w); lit "node_modules"; lit "docsify-cli";
            lit "bin"; lit "docsify"];
  join_all [process_cwd w; lit "node_modules"; lit ".bin"; docsify_name w]
].

(** The command [serveDocsify] spawns. *)
Definition docsify_command (w : World) (s : State) : jsstring :=
  default (lit "docsify") (List.find (exists_in s) (docsify_candidates w)).

Definition serve_args (siteDir : jsstring) (port : N) : list jsstring :=
  [lit "serve"; siteDir; lit "-p"; String_of_N port].

Definition serving_line (port : N) : jsstring :=
  nl ++ lit "Serving changelog at http://localhost:" ++ String_of_N port
     ++ lit " (press Ctrl+C to stop)" ++ nl.

(** The two lines printed when the child could not be started. *)
Definition spawn_hints (w : World) (siteDir : jsstring) (port : N) : list Event :=
  match spawn_error w with
  | Some err_message =>
      [Complained (lit "Failed to start docsify serve: " ++ err_message);
       Complained (lit "Tip: install globally with " ++ dq
                     ++ lit "npm i -g docsify-cli" ++ dq ++ lit " or run:" ++ nl
                     ++ lit "  npx docsify-cli serve " ++ siteDir
                     ++ lit " -p " ++ String_of_N port)]
  | None => []
  end.

(** A computation none of whose events is of the kind [P]. *)
Definition avoids (P : Event -> bool) {A} (m : M A) : Prop :=
  forall w s, exists evs,
    trace (after m w s) = trace s ++ evs /\ existsb P evs = false.

(** A question to the user. *)
Definition is_question (e : Event) : bool :=
  match e with Asked _ _ _ => true | _ => false end.

(** [main] up to the completion call: the repository root and the history
    text ([main_is_gather_then_complete]). *)
Definition gather : M (jsstring * jsstring) :=
  let! inside := ensureGitRepository in
  (if inside then ret tt
   else
     console_error (lit "This tool must be run inside a Git repository.");;
     process_exit 1);;
  let! top := execSync (lit "git rev-parse --show-toplevel") in
  let repoRoot := trim top in
  let! mode := prompt_list (lit "mode") (lit "What would you like to generate?")
                 mode_choices in
  let! range :=
    (if decide (mode = lit "tags") then selectByTags
     else if decide (mode = lit "commits") then selectByCommits
     else selectByTimeRange) in
  let! historyMarkdown := collectGitHistoryText range in
  ret (repoRoot, historyMarkdown).

(** A request or a write. *)
Definition is_output (e : Event) : bool := is_fetch e || is_fs_event e.

(** A request or a question. *)
Definition is_exchange (e : Event) : bool := is_fetch e || is_question e.

(** The history text of a range in a world where the three queries
    succeed. *)
Definition history_of (w : World) (range : Range) : jsstring :=
  headed_sections [
    (lit "Commit Log",
     section_body (stdout (run w (log_command (from range) (to range))))
                  (lit "(No commits)"));
    (lit "Changed Files (name-status)",
     section_body (stdout (run w (files_command (from range) (to range))))
                  (lit "(No file changes)"));
    (lit "Diff Stats",
     section_body (stdout (run w (stats_command (from range) (to range))))
                  (lit "(No stats)"))].

(** * Properties *)

(** ** The string and date primitives on concrete inputs *)

Example trim_example :
  trim (lit "  abc " ++ nl) = lit "abc".
Proof. reflexivity. Qed.

Example digits_example : String_of_N 1200 = lit "1200" /\ String_of_N 0 = lit "0"
  /\ pad0 3 7 = lit "007" /\ String_of_N 1000000 = lit "1000000".
Proof. repeat split; reflexivity. Qed.

Example split_example :
  split_lines (lit "a" ++ nl ++ nl ++ lit "bc") = [lit "a"; []; lit "bc"]
  /\ split_first (lit " | ") (lit "v1.0 | 2024-01-01 | x | y") = lit "v1.0".
Proof. split; reflexivity. Qed.

Example iso_example :
  toISOString 0 = lit "1970-01-01T00:00:00.000Z"
  /\ toISOString 1714521600000 = lit "2024-05-01T00:00:00.000Z"
  /\ toISOString 1709251199999 = lit "2024-02-29T23:59:59.999Z"
  /\ toISOString (-1) = lit "1969-12-31T23:59:59.999Z"
  /\ toISOString 253402300800000 = lit "+010000-01-01T00:00:00.000Z"
  /\ toISOString (-62198755200000) = lit "-000001-01-01T00:00:00.000Z".
Proof. repeat split; vm_compute; reflexivity. Qed.

Example utf8_example :
  utf8 [65; 233; 8217; 55357; 56832; 55357]
  = map byte_of [65; 195; 169; 226; 128; 153; 240; 159; 152; 128; 239; 191; 189].
Proof. vm_compute. reflexivity. Qed.

(** ** The monad *)

Ltac run_step :=
  match goal with
  | |- context [match ?m ?w ?s with (_, _) => _ end] =>
      let o := fresh "o" in let s' := fresh "s" in
      destruct (m w s) as [o s'] eqn:?; destruct o; cbn beta iota
  end.

Lemma main_is_generate_then_publish :
  same_run main (bind generate (fun g => publish (fst g) (snd g))).
Proof.
  intros w s. unfold main, generate, publish.
  cbv beta iota delta [bind].
  repeat (run_step; try reflexivity).
Qed.

Lemma extends_trace_nil s : extends_trace s [] s.
Proof. unfold extends_trace. destruct s; cbn. by rewrite app_nil_r. Qed.

Lemma extends_trace_app s evs s' evs' s'' :
  extends_trace s evs s' -> extends_trace s' evs' s'' ->
  extends_trace s (evs ++ evs') s''.
Proof.
  unfold extends_trace. intros -> ->. cbn. by rewrite <- app_assoc.
Qed.

(** ** Computations that leave the file system alone *)

Create HintDb ro discriminated.

Lemma read_only_ret {A} (a : A) : read_only (ret a).
Proof. intros w s. exists []. split; [apply extends_trace_nil | done]. Qed.

Lemma read_only_throw {A} (e : Exn) : read_only (@throw A e).
Proof. intros w s. exists []. split; [apply extends_trace_nil | done]. Qed.

Lemma read_only_process_exit {A} (c : Z) : c <> 0%Z -> read_only (@process_exit A c).
Proof.
  intros Hc w s. exists []. split; [apply extends_trace_nil |].
  split; [done |]. by intros c' [= <-].
Qed.

Lemma read_only_ask {A} (f : World -> A) : read_only (ask f).
Proof. intros w s. exists []. split; [apply extends_trace_nil | done]. Qed.

Lemma read_only_emit (e : Event) : is_fs_event e = false -> read_only (emit e).
Proof.
  intros He w s. exists [e]. split; [done |]. split; [by cbn; rewrite He | done].
Qed.

Lemma read_only_existsSync p : read_only (existsSync p).
Proof. intros w s. exists []. split; [apply extends_trace_nil | done]. Qed.

Lemma read_only_bind {A B} (m : M A) (k : A -> M B) :
  read_only m -> (forall a, read_only (k a)) -> read_only (bind m k).
Proof.
  intros Hm Hk w s. destruct (Hm w s) as (evs & Hs & Hevs & Hexit).
  unfold after, outcome, bind in *.
  destruct (m w s) as [[a|e|c] s1]; cbn in Hs, Hexit;
    try (exists evs; split; [done |]; split; [done |];
         first [done | intros c0 [= <-]; by apply (Hexit c)]).
  destruct (Hk a w s1) as (evs' & Hs' & Hevs' & Hexit').
  exists (evs ++ evs'). repeat split.
  - by eapply extends_trace_app.
  - rewrite existsb_app, Hevs, Hevs'. done.
  - done.
Qed.

Lemma read_only_try_catch {A} (m : M A) (h : Exn -> M A) :
  read_only m -> (forall e, read_only (h e)) -> read_only (try_catch m h).
Proof.
  intros Hm Hh w s. destruct (Hm w s) as (evs & Hs & Hevs & Hexit).
  unfold after, outcome, try_catch in *.
  destruct (m w s) as [[a|e|c] s1]; cbn in Hs, Hexit;
    try (exists evs; split; [done |]; split; [done |];
         first [done | intros c0 [= <-]; by apply (Hexit c)]).
  destruct (Hh e w s1) as (evs' & Hs' & Hevs' & Hexit').
  exists (evs ++ evs'). repeat split.
  - by eapply extends_trace_app.
  - rewrite existsb_app, Hevs, Hevs'. done.
  - done.
Qed.

Lemma read_only_settle {A} (r : Exn + A) : read_only (settle r).
Proof. destruct r; [apply read_only_throw | apply read_only_ret]. Qed.

#[local] Hint Resolve read_only_ret read_only_throw
  read_only_ask read_only_existsSync read_only_settle : ro.

Ltac read_only_tac :=
  repeat first
    [ solve [auto with ro]
    | apply read_only_emit; reflexivity
    | apply read_only_process_exit; discriminate
    | apply read_only_bind; [| intros]
    | apply read_only_try_catch; [| intros]
    | match goal with
      | |- read_only (if ?b then _ else _) => destruct b
      | |- read_only (match ?x with _ => _ end) => destruct x
      | |- read_only (let '(_, _) := ?x in _) => destruct x
      end ].

Lemma read_only_mapM {A B} (f : A -> M B) (l : list A) :
  (forall a, read_only (f a)) -> read_only (mapM f l).
Proof. intros Hf. induction l; cbn; read_only_tac. Qed.

Lemma read_only_console_error line : read_only (console_error line).
Proof. unfold console_error. read_only_tac. Qed.

Lemma read_only_console_log line : read_only (console_log line).
Proof. unfold console_log. read_only_tac. Qed.

Lemma read_only_execSync command : read_only (execSync command).
Proof. unfold execSync. read_only_tac. Qed.

Lemma read_only_execSync_wc_l command : read_only (execSync_wc_l command).
Proof. unfold execSync_wc_l. read_only_tac. Qed.

Lemma read_only_prompt_list qname msg choices :
  read_only (prompt_list qname msg choices).
Proof. unfold prompt_list. read_only_tac. Qed.

Lemma read_only_prompt_text type qname msg : read_only (prompt_text type qname msg).
Proof. unfold prompt_text. read_only_tac. Qed.

Lemma read_only_Date_toISOString d : read_only (Date_toISOString d).
Proof. unfold Date_toISOString. read_only_tac. Qed.

#[local] Hint Resolve read_only_mapM read_only_console_error read_only_console_log
  read_only_execSync read_only_execSync_wc_l read_only_prompt_list
  read_only_prompt_text read_only_Date_toISOString : ro.

Lemma read_only_ensureGitRepository : read_only ensureGitRepository.
Proof. unfold ensureGitRepository. read_only_tac. Qed.

Lemma read_only_commit_choice entry : read_only (commit_choice entry).
Proof. unfold commit_choice. read_only_tac. Qed.

#[local] Hint Resolve read_only_commit_choice : ro.

Lemma read_only_selectByCommits : read_only selectByCommits.
Proof. unfold selectByCommits. read_only_tac. Qed.

Lemma read_only_selectByTags : read_only selectByTags.
Proof. unfold selectByTags. read_only_tac. Qed.

Lemma read_only_selectByTimeRange : read_only selectByTimeRange.
Proof. unfold selectByTimeRange. read_only_tac. Qed.

Lemma read_only_collectGitHistoryText range :
  read_only (collectGitHistoryText range).
Proof. unfold collectGitHistoryText. read_only_tac. Qed.

Lemma read_only_do_fetch req : read_only (do_fetch req).
Proof. unfold do_fetch. read_only_tac. Qed.

#[local] Hint Resolve read_only_do_fetch : ro.

Lemma read_only_callAzureOpenAI historyMarkdown :
  read_only (callAzureOpenAI historyMarkdown).
Proof. unfold callAzureOpenAI. read_only_tac. Qed.

#[local] Hint Resolve read_only_ensureGitRepository read_only_selectByCommits
  read_only_selectByTags read_only_selectByTimeRange
  read_only_collectGitHistoryText read_only_callAzureOpenAI : ro.

Lemma read_only_generate : read_only generate.
Proof. unfold generate. read_only_tac. Qed.

Lemma read_only_first_existing candidates : read_only (first_existing candidates).
Proof. induction candidates; cbn; read_only_tac. Qed.

#[local] Hint Resolve read_only_first_existing : ro.

Lemma read_only_serveDocsify siteDir port : read_only (serveDocsify siteDir port).
Proof. unfold serveDocsify, resolveDocsifyBin, spawn. read_only_tac. Qed.

(** ** The sample run *)

Example sample_history :
  outcome (collectGitHistoryText {| from := lit "v1.0.0"; to := lit "v1.1.0" |})
          sample_world sample_state
  = Return (join nl [
      lit "# Git History"; [];
      lit "## Commit Log";
      lit "9f8e7d6" ++ [9] ++ lit "Ada" ++ [9] ++ lit "2024-05-02 10:00:00 +0000"
        ++ [9] ++ lit "Add a.txt"; [];
      lit "## Changed Files (name-status)";
      lit "A" ++ [9] ++ lit "a.txt"; [];
      lit "## Diff Stats";
      lit "a.txt | 1 +" ++ nl ++ lit " 1 file changed, 1 insertion(+)"
    ]).
Proof. vm_compute. reflexivity. Qed.

Example sample_script_run :
  outcome script sample_world sample_state = Return tt
  /\ files (after script sample_world sample_state) !! lit "/repo/CHANGELOG.generated.md"
     = Some (utf8 sample_changelog)
  /\ files (after script sample_world sample_state) !! lit "/repo/.diffgen_site/README.md"
     = Some (utf8 sample_changelog)
  /\ files (after script sample_world sample_state) !! lit "/repo/.diffgen_site/index.html"
     = Some (utf8 index_html)
  /\ filter (fun e => is_fs_event e = true) (trace (after script sample_world sample_state))
     = [Wrote (lit "/repo/CHANGELOG.generated.md");
        MadeDir (lit "/repo/.diffgen_site");
        Wrote (lit "/repo/.diffgen_site/README.md");
        Wrote (lit "/repo/.diffgen_site/index.html")].
Proof. repeat split; vm_compute; reflexivity. Qed.

(** ** String facts *)

Lemma trimStart_blank s : forallb isWhiteSpace s = true -> trimStart s = [].
Proof.
  induction s as [|u r IH]; cbn; [done |].
  intros [Hu Hr]%andb_true_iff. rewrite Hu. auto.
Qed.

Lemma trim_blank s : forallb isWhiteSpace s = true -> trim s = [].
Proof. intros H. unfold trim, trimEnd. by rewrite (trimStart_blank s H). Qed.

Lemma trimStart_nil_blank s : trimStart s = [] -> forallb isWhiteSpace s = true.
Proof.
  induction s as [|u r IH]; cbn; [done |].
  destruct (isWhiteSpace u); [auto | done].
Qed.

Lemma forallb_rev {A} (f : A -> bool) l : forallb f (rev l) = forallb f l.
Proof.
  induction l as [|a l IH]; cbn; [done |].
  rewrite forallb_app, IH. cbn. rewrite andb_true_r. apply andb_comm.
Qed.

Lemma trimStart_suffix s : exists ws, s = ws ++ trimStart s /\ forallb isWhiteSpace ws = true.
Proof.
  induction s as [|u r (ws & Hr & Hws)]; cbn; [by exists [] |].
  destruct (isWhiteSpace u) eqn:Hu.
  - exists (u :: ws). cbn. rewrite Hu, Hws. split; [by f_equal | done].
  - by exists [].
Qed.

(** [trim] yields the empty string exactly on the strings made of white
    space only. *)
Lemma trim_nil_iff s : trim s = [] <-> forallb isWhiteSpace s = true.
Proof.
  split; [| apply trim_blank].
  unfold trim, trimEnd. intros H.
  destruct (trimStart_suffix s) as (ws & Hs & Hws).
  assert (Hr : trimStart (rev (trimStart s)) = []).
  { apply (f_equal (@rev N)) in H. by rewrite rev_involutive in H. }
  apply trimStart_nil_blank in Hr. rewrite forallb_rev in Hr.
  rewrite Hs, forallb_app, Hws, Hr. done.
Qed.

Lemma section_body_str_or output placeholder :
  str_or (trim output) placeholder = section_body output placeholder.
Proof. unfold str_or, section_body. by destruct (trim output). Qed.

Lemma section_body_nonempty output placeholder :
  placeholder <> [] -> section_body output placeholder <> [].
Proof. unfold section_body. by destruct (trim output). Qed.

Lemma section_body_placeholder output placeholder :
  forallb isWhiteSpace output = true -> section_body output placeholder = placeholder.
Proof. intros H. unfold section_body. by rewrite (trim_blank _ H). Qed.

(** ** HistoryCollector *)

#[local] Arguments execSync : simpl never.
#[local] Arguments execSync_wc_l : simpl never.
#[local] Arguments prompt_list : simpl never.
#[local] Arguments prompt_text : simpl never.
#[local] Arguments trim : simpl never.
#[local] Arguments toISOString : simpl never.
#[local] Arguments lit : simpl never.
#[local] Arguments join : simpl never.

Lemma execSync_run command w s :
  execSync command w s
  = (if (exit_status (run w command) =? 0)%Z
     then Return (stdout (run w command))
     else Throw (Error (lit "Command failed: " ++ command)),
     add_event s (Executed command)).
Proof.
  unfold execSync, bind, emit, ask, ret, throw. cbn.
  by destruct (exit_status (run w command) =? 0)%Z.
Qed.

Lemma split_lines_cons s : exists l ls, split_lines s = l :: ls.
Proof.
  induction s as [|u r (l & ls & IH)]; cbn; [by eauto |].
  destruct (u =? 10); [by eauto |]. rewrite IH. by eauto.
Qed.

(** A line feed separates the lines before it from the lines after it. *)
Lemma split_lines_app a b :
  split_lines (a ++ nl ++ b) = split_lines a ++ split_lines b.
Proof.
  induction a as [|u r IH]; [done |]. cbn [app split_lines].
  destruct (u =? 10); [by rewrite IH |].
  rewrite IH. by destruct (split_lines_cons r) as (l & ls & ->).
Qed.

Lemma heading_lines_app a b :
  heading_lines (a ++ nl ++ b) = heading_lines a ++ heading_lines b.
Proof. unfold heading_lines. by rewrite split_lines_app, List.filter_app. Qed.

(** The heading lines of parts joined by line feeds are the heading lines
    of the parts. *)
Lemma heading_lines_join part parts :
  heading_lines (join nl (part :: parts))
  = concat (map heading_lines (part :: parts)).
Proof.
  revert part. induction parts as [|next rest IH]; intros part.
  - cbn. by rewrite app_nil_r.
  - change (join nl (part :: next :: rest))
      with (part ++ nl ++ join nl (next :: rest)).
    by rewrite heading_lines_app, IH.
Qed.

(** C2. For every range, the history text the collector returns is the
    title followed by the three sections the collector emits, in the order
    commit log, changed files, diff stats; the body of each section is the
    trimmed output of its query, or the section's placeholder when that
    output is empty (or white space only), and is never the empty string.
    The collector returns whenever its three queries exit with status 0.
    Read line by line, the heading lines of the text are the three headings
    in that order, each followed by the heading lines of its own body: the
    output of git is shown as it is, so the three headings are the only
    ones exactly when no line of a body starts like a heading. *)
Theorem C2_history_text_sections (w : World) (s : State) (range : Range) :
  let logText := stdout (run w (log_command (from range) (to range))) in
  let filesText := stdout (run w (files_command (from range) (to range))) in
  let statsText := stdout (run w (stats_command (from range) (to range))) in
  let body1 := section_body logText (lit "(No commits)") in
  let body2 := section_body filesText (lit "(No file changes)") in
  let body3 := section_body statsText (lit "(No stats)") in
  (exit_status (run w (log_command (from range) (to range))) = 0%Z ->
   exit_status (run w (files_command (from range) (to range))) = 0%Z ->
   exit_status (run w (stats_command (from range) (to range))) = 0%Z ->
   exists history, outcome (collectGitHistoryText range) w s = Return history)
  /\ (forall history,
        outcome (collectGitHistoryText range) w s = Return history ->
        history = headed_sections [
                    (lit "Commit Log", body1);
                    (lit "Changed Files (name-status)", body2);
                    (lit "Diff Stats", body3)]
        /\ body1 <> [] /\ body2 <> [] /\ body3 <> []
        /\ (forallb isWhiteSpace logText = true -> body1 = lit "(No commits)")
        /\ (forallb isWhiteSpace filesText = true -> body2 = lit "(No file changes)")
        /\ (forallb isWhiteSpace statsText = true -> body3 = lit "(No stats)")
        /\ heading_lines history
           = lit "## Commit Log" :: heading_lines body1
             ++ lit "## Changed Files (name-status)" :: heading_lines body2
             ++ lit "## Diff Stats" :: heading_lines body3
        /\ (heading_lines history
            = [lit "## Commit Log"; lit "## Changed Files (name-status)";
               lit "## Diff Stats"]
            <-> heading_lines body1 = [] /\ heading_lines body2 = []
                /\ heading_lines body3 = [])).
Proof.
  cbn zeta. unfold outcome, collectGitHistoryText, bind.
  rewrite !execSync_run.
  destruct (Z.eqb_spec (exit_status (run w (log_command (from range) (to range)))) 0);
    [| split; [done | by intros ?]].
  destruct (Z.eqb_spec (exit_status (run w (files_command (from range) (to range)))) 0);
    [| split; [done | by intros ?]].
  destruct (Z.eqb_spec (exit_status (run w (stats_command (from range) (to range)))) 0);
    [| split; [done | by intros ?]].
  unfold ret. cbn [fst]. split; [eauto |].
  intros history [= <-]. rewrite !section_body_str_or.
  set (body1 := section_body _ (lit "(No commits)")).
  set (body2 := section_body _ (lit "(No file changes)")).
  set (body3 := section_body _ (lit "(No stats)")).
  assert (heading_lines
            (join nl [lit "# Git History"; []; lit "## Commit Log"; body1; [];
                      lit "## Changed Files (name-status)"; body2; [];
                      lit "## Diff Stats"; body3])
          = lit "## Commit Log" :: heading_lines body1
            ++ lit "## Changed Files (name-status)" :: heading_lines body2
            ++ lit "## Diff Stats" :: heading_lines body3) as Hlines.
  { rewrite heading_lines_join. cbn [map concat].
    change (heading_lines (lit "# Git History")) with (@nil jsstring).
    change (heading_lines []) with (@nil jsstring).
    change (heading_lines (lit "## Commit Log")) with [lit "## Commit Log"].
    change (heading_lines (lit "## Changed Files (name-status)"))
      with [lit "## Changed Files (name-status)"].
    change (heading_lines (lit "## Diff Stats")) with [lit "## Diff Stats"].
    cbn [app]. by rewrite app_nil_r. }
  split; [| split; [| split; [| split; [| split; [| split; [| split; [| split]]]]]]].
  - unfold headed_sections, join, nl. cbn [map concat fst snd].
    rewrite !app_nil_r, <- !app_assoc. reflexivity.
  - by apply section_body_nonempty.
  - by apply section_body_nonempty.
  - by apply section_body_nonempty.
  - apply section_body_placeholder.
  - apply section_body_placeholder.
  - apply section_body_placeholder.
  - exact Hlines.
  - rewrite Hlines. split.
    + intros [= H]. destruct (heading_lines body1) as [|l1 ls1].
      * cbn [app] in H. injection H as H.
        destruct (heading_lines body2) as [|l2 ls2].
        -- cbn [app] in H. injection H as H. done.
        -- cbn [app] in H. injection H as _ H.
           by destruct ls2.
      * cbn [app] in H. injection H as _ H.
        apply (f_equal length) in H. rewrite !length_app in H. cbn in H.
        rewrite !length_app in H. cbn in H. lia.
    + by intros (-> & -> & ->).
Qed.

Lemma C2_history_text_sections_witness :
  let range := {| from := lit "v1.0.0"; to := lit "v1.1.0" |} in
  exists history,
    outcome (collectGitHistoryText range) sample_world sample_state = Return history
    /\ history = headed_sections [
         (lit "Commit Log",
          lit "9f8e7d6" ++ [9] ++ lit "Ada" ++ [9] ++ lit "2024-05-02 10:00:00 +0000"
            ++ [9] ++ lit "Add a.txt");
         (lit "Changed Files (name-status)", lit "A" ++ [9] ++ lit "a.txt");
         (lit "Diff Stats",
          lit "a.txt | 1 +" ++ nl ++ lit " 1 file changed, 1 insertion(+)")]
    /\ heading_lines history
       = [lit "## Commit Log"; lit "## Changed Files (name-status)";
          lit "## Diff Stats"].
Proof.
  intros range.
  destruct (C2_history_text_sections sample_world sample_state range)
    as [Hruns Hshape].
  destruct Hruns as [history Hhistory]; try reflexivity.
  exists history. split; [exact Hhistory |].
  destruct (Hshape history Hhistory) as (-> & _ & _ & _ & _ & _ & _ & _ & Hlines).
  split; [reflexivity |]. apply Hlines. repeat split; reflexivity.
Defined.

(** C2 as the specification words it (exactly three headed sections for
    every range) fails where git prints headings of its own.  In the sample repository with the Markdown message the collector
    returns, for the range of the two tags, a text with five heading lines
    and not three: the text is a layout of five headed sections, and the
    heading of the diff statistics comes a first time before the heading of
    the changed files. *)
Lemma C2_history_text_sections_counterexample :
  let range := {| from := lit "v1.0.0"; to := lit "v1.1.0" |} in
  exists history,
    outcome (collectGitHistoryText range) markdown_world sample_state = Return history
    /\ heading_lines history
       = [lit "## Commit Log"; lit "## Diff Stats"; lit "## Summary";
          lit "## Changed Files (name-status)"; lit "## Diff Stats"]
    /\ heading_lines history
       <> [lit "## Commit Log"; lit "## Changed Files (name-status)";
           lit "## Diff Stats"]
    /\ history = headed_sections [
         (lit "Commit Log",
          lit "9f8e7d6" ++ [9] ++ lit "Ada" ++ [9] ++ lit "2024-05-02 10:00:00 +0000"
            ++ [9] ++ lit "Add a.txt" ++ nl ++ lit "See below.");
         (lit "Diff Stats", lit "One file.");
         (lit "Summary", lit "Adds a.txt.");
         (lit "Changed Files (name-status)", lit "A" ++ [9] ++ lit "a.txt");
         (lit "Diff Stats",
          lit "a.txt | 1 +" ++ nl ++ lit " 1 file changed, 1 insertion(+)")].
Proof.
  intros range. eexists. split; [vm_compute; reflexivity |].
  split; [vm_compute; reflexivity |].
  split; [| vm_compute; reflexivity].
  intros Hthree. vm_compute in Hthree. discriminate.
Qed.

(** ** ChangelogGenerator *)

Lemma prompt_text_run type qname msg w s :
  prompt_text type qname msg w s
  = (Return (inquirer_input w qname), add_event s (Asked type qname msg)).
Proof. reflexivity. Qed.

Lemma do_fetch_run req w s :
  do_fetch req w s
  = (match fetch w req with inl e => Throw e | inr res => Return res end,
     add_event s (Fetched req)).
Proof.
  unfold do_fetch, bind, emit, ask, settle. cbn. by destruct (fetch w req).
Qed.

(** What [callAzureOpenAI] does, step by step. *)
Lemma callAzureOpenAI_run historyMarkdown w s :
  callAzureOpenAI historyMarkdown w s
  = let s1 := if key_missing (env_OPENAI_API_KEY w)
              then add_event s key_question else s in
    if key_missing (credential w) then (Throw MissingCredential, s1)
    else
      let s2 := add_event s1 (Fetched (request_of w historyMarkdown)) in
      match fetch w (request_of w historyMarkdown) with
      | inl e => (Throw e, s2)
      | inr res =>
          if ok res then
            match json res with
            | inl e => (Throw e, s2)
            | inr data =>
                match js_or (content_of data) (JStr []) with
                | JStr c =>
                    if truthy_str (trim c) then (Return c, s2)
                    else (Throw EmptyCompletion, s2)
                | _ => (Throw (TypeError (lit "content.trim is not a function")), s2)
                end
            end
          else (Throw (CompletionServiceError res), s2)
      end.
Proof.
  unfold callAzureOpenAI, request_of, credential, key_question.
  unfold bind, ask, ret, throw. cbn beta iota zeta.
  destruct (key_missing (env_OPENAI_API_KEY w)) eqn:Henv.
  - rewrite prompt_text_run. cbn beta iota.
    destruct (key_missing (Some _)); [done |].
    rewrite do_fetch_run. cbn [default from_option id].
    destruct (fetch w _) as [e|res]; [done |].
    destruct (ok res); cbn [negb]; [| done].
    destruct (json res) as [e|data]; cbn [settle]; [done |].
    unfold ret, throw.
    destruct (js_or _ _) as [| | | |c| |]; try done.
    by destruct (truthy_str (trim c)).
  - rewrite Henv, do_fetch_run.
    destruct (fetch w _) as [e|res]; [done |].
    destruct (ok res); cbn [negb]; [| done].
    destruct (json res) as [e|data]; cbn [settle]; [done |].
    unfold ret, throw.
    destruct (js_or _ _) as [| | | |c| |]; try done.
    by destruct (truthy_str (trim c)).
Qed.

Lemma blank_content_or v :
  blank_content v = true ->
  exists c, js_or v (JStr []) = JStr c /\ trim c = [].
Proof.
  unfold js_or. destruct v as [| |b|x|c|items|fields]; cbn; try by eauto.
  - intros ->%negb_true_iff. by eauto.
  - destruct x; cbn; eauto; done.
  - intros Hc. exists c. split; [by destruct c | by apply trim_blank].
Qed.

(** C3. When the completion service answers with a success status and the
    content field of the body ([choices[0].message.content]) is the empty
    string or white space only (or is missing or falsy), the generator
    throws the empty-completion error and returns nothing. *)
Theorem C3_blank_completion_is_rejected
    (w : World) (s : State) (historyMarkdown : jsstring)
    (res : Response) (data : JSValue) :
  key_missing (credential w) = false ->
  fetch w (request_of w historyMarkdown) = inr res ->
  ok res = true ->
  json res = inr data ->
  blank_content (content_of data) = true ->
  outcome (callAzureOpenAI historyMarkdown) w s = Throw EmptyCompletion.
Proof.
  intros Hkey Hfetch Hok Hjson Hblank. unfold outcome.
  rewrite callAzureOpenAI_run. cbn zeta. rewrite Hkey, Hfetch, Hok, Hjson.
  destruct (blank_content_or _ Hblank) as (c & -> & ->). reflexivity.
Qed.

Lemma C3_blank_completion_is_rejected_witness :
  let blank := [32; 10; 9; 160; 8202] in
  let service := fun _ : Request =>
    inr (responded 200 (lit "OK") (lit "{...}") (inr (completion (JStr blank)))) in
  forallb isWhiteSpace blank = true
  /\ outcome (callAzureOpenAI (lit "# Git History"))
             (with_fetch sample_world service) sample_state
     = Throw EmptyCompletion.
Proof.
  intros blank service. split; [reflexivity |].
  eapply (C3_blank_completion_is_rejected (with_fetch sample_world service));
    reflexivity.
Defined.

(** C4. When the completion service answers with a status outside 200 to
    299, the generator throws the service error; its message holds the
    decimal status code and the response body. *)
Theorem C4_service_error_carries_status_and_body
    (w : World) (s : State) (historyMarkdown : jsstring) (res : Response) :
  key_missing (credential w) = false ->
  fetch w (request_of w historyMarkdown) = inr res ->
  status res < 200 \/ 299 < status res ->
  outcome (callAzureOpenAI historyMarkdown) w s = Throw (CompletionServiceError res)
  /\ Exn_message (CompletionServiceError res)
     = lit "Azure OpenAI error: " ++ String_of_N (status res) ++ lit " "
         ++ statusText res ++ lit " - " ++ text res.
Proof.
  intros Hkey Hfetch Hstatus. split; [| reflexivity]. unfold outcome.
  rewrite callAzureOpenAI_run. cbn zeta. rewrite Hkey, Hfetch.
  assert (ok res = false) as ->; [| reflexivity].
  unfold ok. apply andb_false_iff.
  destruct Hstatus; [left; by apply N.leb_gt | right; by apply N.leb_gt].
Qed.

Lemma C4_service_error_carries_status_and_body_witness :
  let res := responded 429 (lit "Too Many Requests") (lit "slow down") (inl (SyntaxError [])) in
  outcome (callAzureOpenAI (lit "# Git History"))
          (with_fetch sample_world (fun _ => inr res)) sample_state
  = Throw (Error (lit "Azure OpenAI error: 429 Too Many Requests - slow down")).
Proof.
  intros res.
  refine (proj1 (C4_service_error_carries_status_and_body
                   (with_fetch sample_world (fun _ => inr res)) sample_state
                   (lit "# Git History") res _ _ _)).
  - reflexivity.
  - reflexivity.
  - right. reflexivity.
Defined.

Lemma new_events_add_event s e : new_events s (add_event s e) = [e].
Proof. unfold new_events, add_event. cbn. by rewrite drop_app_length. Qed.

Lemma new_events_add_event2 s e1 e2 :
  new_events s (add_event (add_event s e1) e2) = [e1; e2].
Proof.
  unfold new_events, add_event. cbn. rewrite <- app_assoc.
  by rewrite drop_app_length.
Qed.

(** C10. A key that is the empty string counts as no key.  With the
    environment variable set to the empty string the masked question is
    asked first; when the answer is empty as well, the generator throws the
    missing-credential error, and the question is the only event of the
    call: no request is sent. *)
Theorem C10_empty_key_is_no_key
    (w : World) (s : State) (historyMarkdown : jsstring) :
  env_OPENAI_API_KEY w = Some [] ->
  (exists later,
     new_events s (after (callAzureOpenAI historyMarkdown) w s) = key_question :: later)
  /\ (inquirer_input w (lit "apiKey") = [] ->
      outcome (callAzureOpenAI historyMarkdown) w s = Throw MissingCredential
      /\ new_events s (after (callAzureOpenAI historyMarkdown) w s) = [key_question]
      /\ existsb is_fetch (new_events s (after (callAzureOpenAI historyMarkdown) w s))
         = false).
Proof.
  intros Henv. unfold outcome, after. rewrite callAzureOpenAI_run.
  assert (credential w = Some (inquirer_input w (lit "apiKey"))) as Hkey.
  { unfold credential. by rewrite Henv. }
  rewrite Henv, Hkey. cbn [key_missing truthy_str negb]. cbn zeta.
  split.
  - destruct (truthy_str (inquirer_input w (lit "apiKey"))); cbn [negb].
    + exists [Fetched (request_of w historyMarkdown)].
      repeat case_match; cbn [snd]; apply new_events_add_event2.
    + exists []. apply new_events_add_event.
  - intros ->. cbn [key_missing truthy_str negb fst snd].
    rewrite new_events_add_event. done.
Qed.

Lemma C10_empty_key_is_no_key_witness :
  let w := with_input (with_env sample_world (Some [])) (fun _ => []) in
  outcome (callAzureOpenAI (lit "# Git History")) w sample_state
  = Throw (Error (lit "OPENAI_API_KEY is required."))
  /\ trace (after (callAzureOpenAI (lit "# Git History")) w sample_state)
     = [Asked (lit "password") (lit "apiKey") (lit "Enter OPENAI_API_KEY:")].
Proof.
  intros w.
  destruct (C10_empty_key_is_no_key w sample_state (lit "# Git History") eq_refl)
    as [_ Hempty].
  destruct (Hempty eq_refl) as (Hthrow & Hevents & _).
  split; [exact Hthrow | exact Hevents].
Defined.

(** ** Paths of the output files *)

Lemma path_join_prefix a b : path_join a b = join_prefix a ++ b.
Proof.
  unfold path_join, join_prefix. destruct (last a) as [u|]; [| done].
  destruct (u =? 47); [done |]. by rewrite <- app_assoc.
Qed.

Lemma changelog_path_eq root :
  changelog_path root = join_prefix root ++ lit "CHANGELOG.generated.md".
Proof. apply path_join_prefix. Qed.

Lemma site_dir_eq root : site_dir root = join_prefix root ++ lit ".diffgen_site".
Proof. apply path_join_prefix. Qed.

Lemma join_prefix_site_dir root :
  join_prefix (site_dir root) = join_prefix root ++ lit ".diffgen_site/".
Proof.
  rewrite site_dir_eq. unfold join_prefix at 1. rewrite last_app. cbn.
  by rewrite <- app_assoc.
Qed.

Lemma readme_path_eq root :
  readme_path root = join_prefix root ++ lit ".diffgen_site/README.md".
Proof.
  unfold readme_path. rewrite path_join_prefix, join_prefix_site_dir.
  by rewrite <- app_assoc.
Qed.

Lemma index_html_path_eq root :
  index_html_path root = join_prefix root ++ lit ".diffgen_site/index.html".
Proof.
  unfold index_html_path. rewrite path_join_prefix, join_prefix_site_dir.
  by rewrite <- app_assoc.
Qed.

Lemma readme_not_index root : readme_path root <> index_html_path root.
Proof. rewrite readme_path_eq, index_html_path_eq. by intros ?%app_inv_head. Qed.

Lemma changelog_not_readme root : changelog_path root <> readme_path root.
Proof. rewrite changelog_path_eq, readme_path_eq. by intros ?%app_inv_head. Qed.

Lemma changelog_not_index root : changelog_path root <> index_html_path root.
Proof. rewrite changelog_path_eq, index_html_path_eq. by intros ?%app_inv_head. Qed.

Example output_paths :
  changelog_path (lit "/repo") = lit "/repo/CHANGELOG.generated.md"
  /\ readme_path (lit "/repo") = lit "/repo/.diffgen_site/README.md"
  /\ index_html_path (lit "/repo") = lit "/repo/.diffgen_site/index.html"
  /\ parent_dir (readme_path (lit "/repo")) = site_dir (lit "/repo")
  /\ parent_dir (site_dir (lit "/repo")) = lit "/repo"
  /\ readme_path (lit "/") = lit "/.diffgen_site/README.md".
Proof. repeat split; vm_compute; reflexivity. Qed.

(** ** SiteWriter *)

Lemma exists_in_file s p c : files s !! p = Some c -> exists_in s p = true.
Proof.
  intros H. unfold exists_in. rewrite H.
  rewrite (bool_decide_eq_true_2 (is_Some (Some c))); [apply orb_true_r | by eexists].
Qed.

#[local] Arguments utf8 : simpl never.
#[local] Arguments parent_dir : simpl never.
#[local] Arguments site_dir : simpl never.
#[local] Arguments readme_path : simpl never.
#[local] Arguments index_html_path : simpl never.
#[local] Arguments changelog_path : simpl never.

Ltac site_writer_cases :=
  unfold createDocsifySite, bind, existsSync, mkdirSync, writeFileSync, ret;
  cbn beta iota;
  repeat match goal with
    | |- context [if ?b then _ else _] => destruct b eqn:?; cbn beta iota
    end.

(** Files other than the readme and the shell are not touched. *)
Lemma createDocsifySite_other_files root md w s p :
  p <> readme_path root -> p <> index_html_path root ->
  files (after (createDocsifySite root md) w s) !! p = files s !! p.
Proof.
  intros Hreadme Hindex. unfold after. site_writer_cases; cbn;
    rewrite ?lookup_insert_ne; done.
Qed.

Lemma exists_in_dir s p : p ∈ dirs s -> exists_in s p = true.
Proof. intros H. unfold exists_in. by rewrite bool_decide_eq_true_2. Qed.

Lemma exists_in_true s p :
  exists_in s p = true <-> p ∈ dirs s \/ is_Some (files s !! p).
Proof.
  unfold exists_in. rewrite orb_true_iff, !bool_decide_eq_true. done.
Qed.

(** Writing a file or making a directory removes nothing. *)
Lemma exists_in_write s p q data t :
  exists_in s p = true ->
  exists_in {| files := <[q := data]> (files s); dirs := dirs s; trace := t |} p = true.
Proof.
  rewrite !exists_in_true. cbn. intros [H | H]; [by left | right].
  destruct (decide (q = p)) as [-> | Hne].
  - rewrite lookup_insert_eq. by eexists.
  - by rewrite lookup_insert_ne.
Qed.

Lemma exists_in_written s p data t :
  exists_in {| files := <[p := data]> (files s); dirs := dirs s; trace := t |} p = true.
Proof. apply exists_in_true. right. cbn. rewrite lookup_insert_eq. by eexists. Qed.

Lemma exists_in_mkdir s p q t :
  exists_in s p = true ->
  exists_in {| files := files s; dirs := ({[q]} ∪ dirs s); trace := t |} p = true.
Proof.
  rewrite !exists_in_true. cbn. intros [H | H]; [left; set_solver | by right].
Qed.

Ltac exists_in_tac :=
  repeat match goal with
    | H : exists_in _ _ = true |- _ =>
        apply exists_in_true in H; cbn [files dirs] in H;
        rewrite ?lookup_insert_is_Some' in H
    end;
  apply exists_in_true; cbn [files dirs]; rewrite ?lookup_insert_is_Some';
  rewrite ?elem_of_union, ?elem_of_singleton; intuition auto.

(** A successful run leaves the site directory, the readme with the payload
    and the shell in place. *)
Lemma createDocsifySite_Return root md w s d s1 :
  createDocsifySite root md w s = (Return d, s1) ->
  d = site_dir root
  /\ exists_in s1 (site_dir root) = true
  /\ bool_decide (readme_path root ∈ dirs s1) = false
  /\ bool_decide (parent_dir (readme_path root) ∈ dirs s1) = true
  /\ files s1 !! readme_path root = Some (utf8 md)
  /\ exists_in s1 (index_html_path root) = true.
Proof.
  pose proof (readme_not_index root) as Hne.
  site_writer_cases; intros [= <- <-]; cbn [files dirs trace] in *.
  all: repeat split; try done.
  all: try (by rewrite lookup_insert_eq).
  all: try (by rewrite lookup_insert_ne, lookup_insert_eq).
  all: exists_in_tac.
Qed.

(** Once the site is in place, a run rewrites the readme and nothing else. *)
Lemma createDocsifySite_settled root md w s :
  exists_in s (site_dir root) = true ->
  bool_decide (readme_path root ∈ dirs s) = false ->
  bool_decide (parent_dir (readme_path root) ∈ dirs s) = true ->
  exists_in s (index_html_path root) = true ->
  createDocsifySite root md w s
  = (Return (site_dir root),
     {| files := <[readme_path root := utf8 md]> (files s); dirs := dirs s;
        trace := trace s ++ [Wrote (readme_path root)] |}).
Proof.
  intros Hsite Hreadme Hparent Hindex.
  unfold createDocsifySite, bind, existsSync, mkdirSync, writeFileSync, ret.
  cbn beta iota. rewrite Hsite. cbn beta iota. rewrite Hreadme, Hparent.
  cbn beta iota.
  assert (exists_in
            {| files := <[readme_path root := utf8 md]> (files s); dirs := dirs s;
               trace := trace s ++ [Wrote (readme_path root)] |}
            (index_html_path root) = true) as ->; [exists_in_tac | done].
Qed.

(** The shell, once there, is never written again. *)
Lemma createDocsifySite_keeps_shell root md w s c :
  files s !! index_html_path root = Some c ->
  files (after (createDocsifySite root md) w s) !! index_html_path root = Some c.
Proof.
  intros Hshell. pose proof (readme_not_index root) as Hne.
  assert (forall t,
            exists_in {| files := <[readme_path root := utf8 md]> (files s);
                         dirs := dirs s; trace := t |} (index_html_path root) = true)
    as Hthere.
  { intros t. apply exists_in_true. right. cbn. rewrite lookup_insert_ne; [| done].
    by eexists. }
  assert (forall d t,
            exists_in {| files := <[readme_path root := utf8 md]> (files s);
                         dirs := d; trace := t |} (index_html_path root) = true)
    as Hthere'.
  { intros d t. apply exists_in_true. right. cbn. rewrite lookup_insert_ne; [| done].
    by eexists. }
  unfold after. site_writer_cases; cbn [snd files];
    rewrite ?lookup_insert_ne; try done.
  all: match goal with
       | H : exists_in _ _ = false |- _ => by rewrite Hthere' in H
       end.
Qed.

(** C6. The site writer is idempotent on its payload.  After a successful
    run the readme holds the bytes of the payload; a second run with the
    same payload succeeds too and leaves every file and directory as the
    first run left them, so the readme is byte-identical.  And an
    [index.html] that is already there keeps its bytes through a run with
    any payload, successful or not. *)
Theorem C6_site_writer_idempotent (w : World) (root md : jsstring) (s : State) :
  (forall d s1,
      createDocsifySite root md w s = (Return d, s1) ->
      files s1 !! readme_path root = Some (utf8 md)
      /\ exists s2,
           createDocsifySite root md w s1 = (Return d, s2)
           /\ files s2 = files s1 /\ dirs s2 = dirs s1)
  /\ (forall shell md',
        files s !! index_html_path root = Some shell ->
        files (after (createDocsifySite root md') w s) !! index_html_path root
        = Some shell).
Proof.
  split.
  - intros d s1 Hrun.
    destruct (createDocsifySite_Return _ _ _ _ _ _ Hrun)
      as (-> & Hsite & Hreadme & Hparent & Hfile & Hindex).
    split; [done |]. eexists. split.
    + by apply createDocsifySite_settled.
    + cbn. split; [| done]. by apply insert_id.
  - intros shell md'. apply createDocsifySite_keeps_shell.
Qed.

Lemma C6_site_writer_idempotent_witness :
  let root := lit "/repo" in
  let custom := utf8 (lit "<!-- edited by hand -->") in
  let s := {| files := {[ lit "/repo/.diffgen_site/index.html" := custom ]};
              dirs := {[ lit "/repo"; lit "/repo/.diffgen_site" ]};
              trace := [] |} in
  let s1 := after (createDocsifySite root sample_changelog) sample_world s in
  let s2 := after (createDocsifySite root sample_changelog) sample_world s1 in
  outcome (createDocsifySite root sample_changelog) sample_world s
  = Return (lit "/repo/.diffgen_site")
  /\ files s1 !! lit "/repo/.diffgen_site/README.md" = Some (utf8 sample_changelog)
  /\ files s2 = files s1
  /\ files s1 !! lit "/repo/.diffgen_site/index.html" = Some custom.
Proof.
  intros root custom s s1 s2.
  destruct (C6_site_writer_idempotent sample_world root sample_changelog s)
    as [Hidem Hshell].
  assert (createDocsifySite root sample_changelog sample_world s
          = (Return (lit "/repo/.diffgen_site"), s1)) as Hrun.
  { vm_compute. reflexivity. }
  destruct (Hidem _ _ Hrun) as (Hreadme & s2' & Hrun' & Hfiles & _).
  split; [by unfold outcome; rewrite Hrun |].
  split; [exact Hreadme |].
  split.
  - unfold s2, after. rewrite Hrun'. exact Hfiles.
  - apply (Hshell custom sample_changelog). vm_compute. reflexivity.
Defined.

(** ** The orchestrator *)

Lemma read_only_files {A} (m : M A) w s :
  read_only m ->
  files (after m w s) = files s /\ dirs (after m w s) = dirs s
  /\ existsb is_fs_event (new_events s (after m w s)) = false.
Proof.
  intros Hm. destruct (Hm w s) as (evs & -> & Hevs & _). cbn.
  repeat split. unfold new_events. cbn. by rewrite drop_app_length.
Qed.

Lemma writeFileSync_Return p data w s u s' :
  writeFileSync p data w s = (Return u, s') ->
  s' = {| files := <[p := utf8 data]> (files s); dirs := dirs s;
          trace := trace s ++ [Wrote p] |}.
Proof. unfold writeFileSync. repeat case_match; by intros [= <-]. Qed.

(** What [publish] leaves when it returns. *)
Lemma publish_Return root md w s u s' :
  publish root md w s = (Return u, s') ->
  files s' !! changelog_path root = Some (utf8 md)
  /\ files s' !! readme_path root = Some (utf8 md).
Proof.
  unfold publish, bind.
  destruct (writeFileSync _ _ w s) as [[[]|e|c] s1] eqn:Hwrite; try done.
  apply writeFileSync_Return in Hwrite.
  destruct (console_log _ w s1) as [[[]|e|c] s2] eqn:Hlog; try done.
  assert (files s2 = files s1) as Hlogged.
  { destruct (read_only_files (console_log (nl ++ lit "Changelog written to: "
                ++ changelog_path root)) w s1 (read_only_console_log _)) as (H & _).
    unfold after in H. by rewrite Hlog in H. }
  clear Hlog.
  destruct (createDocsifySite _ _ w s2) as [[d|e|c] s3] eqn:Hsite; try done.
  intros Hserve.
  destruct (read_only_files (serveDocsify d 3000) w s3
              (read_only_serveDocsify d 3000)) as (Hfiles & _).
  unfold after in Hfiles. rewrite Hserve in Hfiles. cbn [snd] in Hfiles.
  rewrite Hfiles. split.
  - pose proof (createDocsifySite_other_files root md w s2
        (changelog_path root) (changelog_not_readme root) (changelog_not_index root))
      as Hframe.
    unfold after in Hframe. rewrite Hsite in Hframe. cbn [snd] in Hframe.
    rewrite Hframe, Hlogged, Hwrite. cbn [files]. by rewrite lookup_insert_eq.
  - by destruct (createDocsifySite_Return _ _ _ _ _ _ Hsite) as (_ & _ & _ & _ & ? & _).
Qed.

Lemma script_Return w s :
  outcome script w s = Return tt ->
  exists s', main w s = (Return tt, s') /\ after script w s = s'.
Proof.
  unfold outcome, after, script, try_catch.
  destruct (main w s) as [[[]|e|c] s'] eqn:Hmain; cbn [fst snd]; try done.
  - eauto.
  - unfold bind. by destruct (truthy_str (Exn_message e)).
Qed.

(** C9. After every run of the script that ends normally, the readme of the
    site and the changelog at the repository root hold the same bytes: the
    UTF-8 encoding of the Markdown the completion call returned. *)
Theorem C9_readme_mirrors_changelog (w : World) (s : State) :
  outcome script w s = Return tt ->
  exists repoRoot changelogMarkdown,
    outcome generate w s = Return (repoRoot, changelogMarkdown)
    /\ files (after script w s) !! changelog_path repoRoot
       = Some (utf8 changelogMarkdown)
    /\ files (after script w s) !! readme_path repoRoot
       = files (after script w s) !! changelog_path repoRoot.
Proof.
  intros (s' & Hmain & ->)%script_Return.
  rewrite main_is_generate_then_publish in Hmain. unfold bind in Hmain.
  unfold outcome.
  destruct (generate w s) as [[[root md]|e|c] sg]; try done.
  exists root, md. cbn [fst snd] in *.
  destruct (publish_Return _ _ _ _ _ _ Hmain) as [Hchangelog Hreadme].
  by rewrite Hreadme, Hchangelog.
Qed.

Lemma C9_readme_mirrors_changelog_witness :
  let s' := after script sample_world sample_state in
  files s' !! lit "/repo/CHANGELOG.generated.md" = Some (utf8 sample_changelog)
  /\ files s' !! lit "/repo/.diffgen_site/README.md"
     = files s' !! lit "/repo/CHANGELOG.generated.md".
Proof.
  intros s'.
  destruct (C9_readme_mirrors_changelog sample_world sample_state)
    as (root & md & Hgen & Hchangelog & Hsame).
  { vm_compute. reflexivity. }
  assert (Return (root, md) = Return (lit "/repo", sample_changelog)) as [= -> ->].
  { rewrite <- Hgen. vm_compute. reflexivity. }
  split; [exact Hchangelog | exact Hsame].
Defined.



(** ** RangeResolver *)

Lemma prompt_list_run qname msg choices w s :
  prompt_list qname msg choices w s
  = (match choices !! inquirer_list w qname with
     | Some c => Return (value c)
     | None => Exit 130
     end, add_event s (list_question qname msg)).
Proof.
  unfold prompt_list, bind, emit, ask, ret, process_exit. cbn.
  by destruct (choices !! inquirer_list w qname).
Qed.

Lemma execSync_wc_l_run command w s :
  execSync_wc_l command w s
  = (Return (wc_l (stdout (run w command))),
     add_event s (Executed (command ++ lit " | wc -l"))).
Proof. reflexivity. Qed.

(** [selectByTags], step by step. *)
Lemma selectByTags_run w s :
  selectByTags w s
  = let s1 := add_event s (Executed tags_command) in
    if (exit_status (run w tags_command) =? 0)%Z then
      match tag_choices w with
      | [] => (Throw NoTagsFound, s1)
      | _ :: _ =>
          let s2 := add_event s1 fromTag_question in
          match tag_choices w !! inquirer_list w (lit "fromTag") with
          | None => (Exit 130, s2)
          | Some fromTag =>
              let s3 := add_event s2 toTag_question in
              match tag_choices w !! inquirer_list w (lit "toTag") with
              | None => (Exit 130, s3)
              | Some toTag =>
                  if decide (value fromTag = value toTag)
                  then (Throw InvalidSelection_tags, s3)
                  else (Return {| from := value fromTag; to := value toTag |}, s3)
              end
          end
      end
    else (Throw (Error (lit "Command failed: " ++ tags_command)), s1).
Proof.
  unfold selectByTags, tag_choices, bind. rewrite execSync_run. cbn zeta.
  destruct (exit_status (run w tags_command) =? 0)%Z; [| done].
  destruct (List.filter truthy_str _) as [|line lines]; [done |].
  cbn [length Nat.eqb]. rewrite prompt_list_run.
  destruct (map tag_choice (line :: lines) !! _) as [fromTag|]; [| done].
  rewrite prompt_list_run.
  destruct (map tag_choice (line :: lines) !! _) as [toTag|]; [| done].
  by destruct (decide (value fromTag = value toTag)).
Qed.

Lemma mapM_commit_choice entries w s :
  Forall (fun entry => Date_parse w (date entry) <> None) entries ->
  mapM commit_choice entries w s = (Return (map (commit_label w) entries), s).
Proof.
  induction 1 as [|entry entries Hdate _ IH]; [done |].
  cbn [mapM map]. unfold bind at 1. unfold commit_choice at 1.
  unfold bind, ask, ret, commit_label.
  destruct (Date_parse w (date entry)) as [t|]; [| done].
  cbn [Date_toISOString]. unfold ret. cbn beta iota. rewrite IH. done.
Qed.

(** The choices of the commit strategy are built without running a
    command. *)
Lemma mapM_commit_choice_with_run entries w sh s :
  mapM commit_choice entries (with_run w sh) s = mapM commit_choice entries w s.
Proof.
  revert s. induction entries as [|entry entries IH]; intros s; [done |].
  cbn [mapM]. unfold bind at 1 3.
  assert (commit_choice entry (with_run w sh) s = commit_choice entry w s) as ->.
  { unfold commit_choice, bind, ask. cbn [with_run Date_parse].
    by destruct (Date_parse w (date entry)). }
  destruct (commit_choice entry w s) as [[c|e|x] s1]; try done.
  unfold bind. rewrite IH. done.
Qed.

(** [selectByCommits], step by step. *)
Lemma selectByCommits_run w s :
  selectByCommits w s
  = match git_log w 100 with
    | inl e => (Throw e, s)
    | inr [] => (Throw NoCommitsFound, s)
    | inr log_all =>
        match mapM commit_choice log_all w s with
        | (Return choices, s1) =>
            let s2 := add_event s1 from_question in
            match choices !! inquirer_list w (lit "from") with
            | None => (Exit 130, s2)
            | Some fromC =>
                let s3 := add_event s2 to_question in
                match choices !! inquirer_list w (lit "to") with
                | None => (Exit 130, s3)
                | Some toC =>
                    if decide (value fromC = value toC)
                    then (Throw InvalidSelection_commits, s3)
                    else (Return {| from := value fromC; to := value toC |},
                          add_event s3
                            (Executed (ancestry_command (value fromC) (value toC)
                                         ++ lit " | wc -l")))
                end
            end
        | (Throw e, s1) => (Throw e, s1)
        | (Exit c, s1) => (Exit c, s1)
        end
    end.
Proof.
  unfold selectByCommits. unfold bind at 1. unfold ask. unfold bind at 1.
  destruct (git_log w 100) as [e|[|entry entries]]; try done.
  cbn [settle ret length Nat.eqb]. unfold ret at 1. cbn beta iota.
  unfold bind at 1.
  destruct (mapM commit_choice (entry :: entries) w s) as [[choices|e|c] s1];
    try done.
  unfold bind at 1. rewrite prompt_list_run.
  destruct (choices !! inquirer_list w (lit "from")) as [fromC|]; [| done].
  unfold bind at 1. rewrite prompt_list_run.
  destruct (choices !! inquirer_list w (lit "to")) as [toC|]; [| done].
  destruct (decide (value fromC = value toC)); [done |].
  unfold bind. rewrite execSync_wc_l_run.
  by destruct (decide (trim _ = lit "0")).
Qed.

Lemma picked_Some choices position a :
  picked choices position = Some a ->
  exists c, choices !! position = Some c /\ value c = a.
Proof.
  unfold picked. destruct (choices !! position) as [c|]; [| done].
  intros [= <-]. eauto.
Qed.

(** The commit strategy does not look at what any command prints: running
    it with another shell gives the same outcome and the same events. *)
Lemma selectByCommits_with_run w sh s :
  selectByCommits (with_run w sh) s = selectByCommits w s.
Proof.
  rewrite !selectByCommits_run. cbn [with_run git_log inquirer_list].
  destruct (git_log w 100) as [e|[|entry entries]]; try done.
  by rewrite mapM_commit_choice_with_run.
Qed.

(** C7. In the tag and the commit strategy two distinct selected revisions
    [a] (FROM) and [b] (TO) are returned as the range from [a] to [b], in
    that order.  In the commit strategy the result does not depend on what
    the ancestry query (or any other command) prints or exits with. *)
Theorem C7_selection_is_returned_unchanged (w : World) (s : State) (a b : jsstring) :
  a <> b ->
  (exit_status (run w tags_command) = 0%Z ->
   picked (tag_choices w) (inquirer_list w (lit "fromTag")) = Some a ->
   picked (tag_choices w) (inquirer_list w (lit "toTag")) = Some b ->
   outcome selectByTags w s = Return {| from := a; to := b |})
  /\ (forall log_all,
        git_log w 100 = inr log_all ->
        Forall (fun entry => Date_parse w (date entry) <> None) log_all ->
        hash <$> log_all !! inquirer_list w (lit "from") = Some a ->
        hash <$> log_all !! inquirer_list w (lit "to") = Some b ->
        outcome selectByCommits w s = Return {| from := a; to := b |})
  /\ (forall sh,
        outcome selectByCommits (with_run w sh) s = outcome selectByCommits w s).
Proof.
  intros Hab. split; [| split].
  - intros Hstatus (cf & Hcf & <-)%picked_Some (ct & Hct & <-)%picked_Some.
    unfold outcome. rewrite selectByTags_run. cbn zeta.
    rewrite Hstatus, Hcf, Hct. cbn [Z.eqb].
    destruct (tag_choices w); [done |].
    by destruct (decide (value cf = value ct)).
  - intros log_all Hlog Hdates Hfrom Hto.
    unfold outcome. rewrite selectByCommits_run, Hlog.
    rewrite (mapM_commit_choice _ _ _ Hdates). cbn zeta.
    rewrite !list_lookup_fmap.
    destruct (log_all !! inquirer_list w (lit "from")) as [ef|] eqn:Hef; [| done].
    destruct (log_all !! inquirer_list w (lit "to")) as [et|] eqn:Het; [| done].
    cbn in Hfrom, Hto. injection Hfrom as <-. injection Hto as <-.
    destruct log_all; [done |]. cbn [fmap option_fmap option_map value commit_label].
    by destruct (decide (hash ef = hash et)).
  - intros sh. unfold outcome. by rewrite selectByCommits_with_run.
Qed.

Lemma C7_selection_is_returned_unchanged_witness :
  (outcome selectByTags sample_world sample_state
   = Return {| from := lit "v1.0.0"; to := lit "v1.1.0" |})
  /\ (outcome selectByCommits sample_world sample_state
      = Return {| from := old_commit; to := new_commit |})
  /\ (outcome selectByCommits (with_run sample_world (fun _ => exited 128 []))
                              sample_state
      = Return {| from := old_commit; to := new_commit |}).
Proof.
  assert (lit "v1.0.0" <> lit "v1.1.0") as Htags by discriminate.
  assert (old_commit <> new_commit) as Hcommits by discriminate.
  destruct (C7_selection_is_returned_unchanged sample_world sample_state _ _ Htags)
    as (Htag & _ & _).
  destruct (C7_selection_is_returned_unchanged sample_world sample_state _ _ Hcommits)
    as (_ & Hcommit & Hany).
  split; [apply Htag; reflexivity |].
  assert (outcome selectByCommits sample_world sample_state
          = Return {| from := old_commit; to := new_commit |}) as Hreturned.
  { apply (Hcommit sample_log); [reflexivity | | reflexivity | reflexivity].
    repeat constructor; discriminate. }
  split; [exact Hreturned |]. rewrite Hany. exact Hreturned.
Defined.

(** [selectByTimeRange], step by step: the boundary queries are run for the
    later timestamp first, then for the earlier one. *)
Lemma selectByTimeRange_run w s :
  selectByTimeRange w s
  = let s2 := add_event (add_event s start_question) end_question in
    match chrono_parseDate w (inquirer_input w (lit "start")),
          chrono_parseDate w (inquirer_input w (lit "end")) with
    | Some ts, Some te =>
        let lo := Z.min ts te in
        let hi := Z.max ts te in
        let s3 := add_event s2 (Executed (before_command (toISOString hi))) in
        if (exit_status (run w (before_command (toISOString hi))) =? 0)%Z then
          let s4 := add_event s3 (Executed (before_command (toISOString lo))) in
          if (exit_status (run w (before_command (toISOString lo))) =? 0)%Z then
            if negb (truthy_str (last_commit_before w hi))
               || negb (truthy_str (last_commit_before w lo))
            then (Throw NoRevisionForTimestamp, s4)
            else (Return {| from := last_commit_before w lo;
                            to := last_commit_before w hi |}, s4)
          else (Throw (Error (lit "Command failed: "
                                ++ before_command (toISOString lo))), s4)
        else (Throw (Error (lit "Command failed: "
                              ++ before_command (toISOString hi))), s3)
    | _, _ => (Throw DateParseFailure, s2)
    end.
Proof.
  unfold selectByTimeRange, last_commit_before.
  unfold bind at 1. rewrite prompt_text_run.
  unfold bind at 1. rewrite prompt_text_run.
  unfold bind at 1. unfold ask at 1. unfold bind at 1. unfold ask at 1.
  cbn zeta.
  destruct (chrono_parseDate w (inquirer_input w (lit "start"))) as [ts|];
    [| done].
  destruct (chrono_parseDate w (inquirer_input w (lit "end"))) as [te|];
    [| done].
  assert ((if (ts >? te)%Z then (te, ts) else (ts, te)) = (Z.min ts te, Z.max ts te))
    as ->.
  { destruct (Z.gtb_spec ts te); f_equal; lia. }
  unfold bind. rewrite !execSync_run.
  destruct (exit_status (run w (before_command (toISOString (Z.max ts te)))) =? 0)%Z;
    [| done].
  destruct (exit_status (run w (before_command (toISOString (Z.min ts te)))) =? 0)%Z;
    [| done].
  by destruct (negb _ || negb _).
Qed.

(** C5. The time-interval strategy does not depend on the order in which
    the two dates are typed: with the answers exchanged it behaves the same,
    outcome and events.  When both dates parse, the boundary queries are
    run for the later and then for the earlier timestamp, and the range
    that is returned goes from the last commit before the earlier one to
    the last commit before the later one; it is returned whenever both
    queries exit with status 0 and print a revision. *)
Theorem C5_time_range_is_ordered (w : World) (s : State) :
  selectByTimeRange (swap_dates w) s = selectByTimeRange w s
  /\ forall ts te,
       chrono_parseDate w (inquirer_input w (lit "start")) = Some ts ->
       chrono_parseDate w (inquirer_input w (lit "end")) = Some te ->
       let lo := Z.min ts te in
       let hi := Z.max ts te in
       (lo <= hi)%Z
       /\ (forall range,
             outcome selectByTimeRange w s = Return range ->
             range = {| from := last_commit_before w lo;
                        to := last_commit_before w hi |}
             /\ new_events s (after selectByTimeRange w s)
                = [start_question; end_question;
                   Executed (before_command (toISOString hi));
                   Executed (before_command (toISOString lo))])
       /\ (exit_status (run w (before_command (toISOString hi))) = 0%Z ->
           exit_status (run w (before_command (toISOString lo))) = 0%Z ->
           last_commit_before w hi <> [] ->
           last_commit_before w lo <> [] ->
           exists range, outcome selectByTimeRange w s = Return range).
Proof.
  split.
  - assert (inquirer_input (swap_dates w) (lit "start") = inquirer_input w (lit "end"))
      as Hstart by reflexivity.
    assert (inquirer_input (swap_dates w) (lit "end") = inquirer_input w (lit "start"))
      as Hend by reflexivity.
    rewrite !selectByTimeRange_run. unfold last_commit_before.
    rewrite Hstart, Hend. cbn [swap_dates with_input chrono_parseDate run].
    destruct (chrono_parseDate w (inquirer_input w (lit "start"))) as [ts|];
      destruct (chrono_parseDate w (inquirer_input w (lit "end"))) as [te|];
      try done.
    by rewrite (Z.min_comm te ts), (Z.max_comm te ts).
  - intros ts te Hs He lo hi. split; [subst lo hi; lia |].
    unfold outcome, after. rewrite selectByTimeRange_run, Hs, He. cbn zeta.
    fold lo hi.
    destruct (exit_status (run w (before_command (toISOString hi))) =? 0)%Z eqn:Hhi;
      [| split; [done | intros H%Z.eqb_eq; congruence]].
    destruct (exit_status (run w (before_command (toISOString lo))) =? 0)%Z eqn:Hlo;
      [| split; [done | intros _ H%Z.eqb_eq; congruence]].
    destruct (last_commit_before w hi) as [|u1 r1] eqn:Eto;
      [split; [done | by intros _ _ ?] |].
    destruct (last_commit_before w lo) as [|u2 r2] eqn:Efrom;
      [split; [done | by intros _ _ _ ?] |].
    cbn [truthy_str negb orb fst snd]. split; [| by eauto].
    intros range [= <-]. split; [done |].
    unfold new_events, add_event. cbn [trace].
    rewrite <- !app_assoc. by rewrite drop_app_length.
Qed.

Lemma C5_time_range_is_ordered_witness :
  let typed := fun qname =>
    if decide (qname = lit "start") then lit "2024-06-01" else lit "2024-05-01" in
  let w := with_input sample_world typed in
  outcome selectByTimeRange w sample_state
  = Return {| from := old_commit; to := new_commit |}
  /\ outcome selectByTimeRange sample_world sample_state
     = Return {| from := old_commit; to := new_commit |}
  /\ new_events sample_state (after selectByTimeRange w sample_state)
     = [start_question; end_question;
        Executed (before_command (lit "2024-06-01T00:00:00.000Z"));
        Executed (before_command (lit "2024-05-01T00:00:00.000Z"))].
Proof.
  intros typed w.
  destruct (C5_time_range_is_ordered w sample_state) as [Hsym Hordered].
  assert (chrono_parseDate w (inquirer_input w (lit "start")) = Some 1717200000000%Z)
    as Hstart by (vm_compute; reflexivity).
  assert (chrono_parseDate w (inquirer_input w (lit "end")) = Some 1714521600000%Z)
    as Hend by (vm_compute; reflexivity).
  destruct (Hordered _ _ Hstart Hend) as (_ & Hshape & Hreturns).
  destruct Hreturns as [range Hrange].
  { vm_compute. reflexivity. }
  { vm_compute. reflexivity. }
  { vm_compute. discriminate. }
  { vm_compute. discriminate. }
  destruct (Hshape range Hrange) as [-> Hevents].
  assert (outcome selectByTimeRange w sample_state
          = Return {| from := old_commit; to := new_commit |}) as Hreturned.
  { rewrite Hrange. vm_compute. reflexivity. }
  split; [exact Hreturned |]. split.
  - unfold outcome in *.
    assert (selectByTimeRange sample_world sample_state
            = selectByTimeRange (swap_dates w) sample_state) as ->
      by (vm_compute; reflexivity).
    rewrite Hsym. exact Hreturned.
  - rewrite Hevents. vm_compute. reflexivity.
Defined.

(** The tag and the commit strategy compare the two selections: a range
    they return has distinct endpoints, and equal selections are refused
    with the strategy's own error. *)
Lemma selectByTags_distinct w s range :
  outcome selectByTags w s = Return range -> from range <> to range.
Proof.
  unfold outcome. rewrite selectByTags_run. cbn zeta.
  repeat case_match; cbn [fst]; try done. by intros [= <-].
Qed.

Lemma selectByCommits_distinct w s range :
  outcome selectByCommits w s = Return range -> from range <> to range.
Proof.
  unfold outcome. rewrite selectByCommits_run. cbn zeta.
  repeat case_match; cbn [fst]; try done. by intros [= <-].
Qed.

Lemma selectByTags_same_selection w s a :
  exit_status (run w tags_command) = 0%Z ->
  picked (tag_choices w) (inquirer_list w (lit "fromTag")) = Some a ->
  picked (tag_choices w) (inquirer_list w (lit "toTag")) = Some a ->
  outcome selectByTags w s = Throw InvalidSelection_tags.
Proof.
  intros Hstatus (cf & Hcf & <-)%picked_Some (ct & Hct & Hsame)%picked_Some.
  unfold outcome. rewrite selectByTags_run. cbn zeta.
  rewrite Hstatus, Hcf, Hct. cbn [Z.eqb].
  destruct (tag_choices w); [done |].
  by destruct (decide (value cf = value ct)).
Qed.

Lemma selectByCommits_same_selection w s log_all a :
  git_log w 100 = inr log_all ->
  Forall (fun entry => Date_parse w (date entry) <> None) log_all ->
  hash <$> log_all !! inquirer_list w (lit "from") = Some a ->
  hash <$> log_all !! inquirer_list w (lit "to") = Some a ->
  outcome selectByCommits w s = Throw InvalidSelection_commits.
Proof.
  intros Hlog Hdates Hfrom Hto.
  unfold outcome. rewrite selectByCommits_run, Hlog.
  rewrite (mapM_commit_choice _ _ _ Hdates). cbn zeta.
  rewrite !list_lookup_fmap.
  destruct (log_all !! inquirer_list w (lit "from")) as [ef|] eqn:Hef; [| done].
  destruct (log_all !! inquirer_list w (lit "to")) as [et|] eqn:Het; [| done].
  cbn in Hfrom, Hto. injection Hfrom as <-. injection Hto as Hsame.
  destruct log_all; [done |]. cbn [fmap option_fmap option_map value commit_label].
  by destruct (decide (hash ef = hash et)).
Qed.

(** The time-interval strategy has no such comparison: when the two
    boundary queries print the same revision, that revision is returned as
    both endpoints. *)
Lemma selectByTimeRange_same_boundary w s ts te revision :
  chrono_parseDate w (inquirer_input w (lit "start")) = Some ts ->
  chrono_parseDate w (inquirer_input w (lit "end")) = Some te ->
  exit_status (run w (before_command (toISOString (Z.max ts te)))) = 0%Z ->
  exit_status (run w (before_command (toISOString (Z.min ts te)))) = 0%Z ->
  last_commit_before w (Z.max ts te) = revision ->
  last_commit_before w (Z.min ts te) = revision ->
  revision <> [] ->
  outcome selectByTimeRange w s = Return {| from := revision; to := revision |}.
Proof.
  intros Hs He Hhi Hlo Hto Hfrom Hrev. unfold outcome.
  rewrite selectByTimeRange_run, Hs, He. cbn zeta.
  rewrite Hhi, Hlo, Hto, Hfrom. cbn [Z.eqb].
  by destruct revision.
Qed.

(** C1. Equal endpoints are refused by the tag and the commit strategy
    (lemmas above) but not by the time-interval strategy, which has no such
    comparison.  In the sample repository the last commit is of 2 May 2024;
    a user who chooses the time interval and types 1 June 2024 and 1 July
    2024 gets a range whose two endpoints are both that last commit, so a
    returned range can have [from = to]. *)
Theorem C1_time_range_returns_equal_endpoints :
  let typed := fun qname =>
    if decide (qname = lit "start") then lit "2024-06-01" else lit "2024-07-01" in
  let w := with_input sample_world typed in
  outcome selectByTimeRange w sample_state
  = Return {| from := new_commit; to := new_commit |}.
Proof.
  intros typed w.
  apply (selectByTimeRange_same_boundary w sample_state
           1717200000000%Z 1719792000000%Z new_commit);
    try (vm_compute; reflexivity).
  discriminate.
Qed.

Example same_selection_is_refused :
  let same := with_list sample_world (fun _ => 1%nat) in
  outcome selectByTags same sample_state = Throw InvalidSelection_tags
  /\ outcome selectByCommits same sample_state = Throw InvalidSelection_commits
  /\ is_InvalidSelection InvalidSelection_tags = true
  /\ is_InvalidSelection InvalidSelection_commits = true.
Proof. repeat split; vm_compute; reflexivity. Qed.

(** * Further properties of the script *)

(** ** Stepping through a sequence *)

Lemma bind_Return {A B} (m : M A) (k : A -> M B) w s a s' :
  m w s = (Return a, s') -> bind m k w s = k a w s'.
Proof. unfold bind. by intros ->. Qed.

Lemma bind_Throw {A B} (m : M A) (k : A -> M B) w s e s' :
  m w s = (Throw e, s') -> bind m k w s = (Throw e, s').
Proof. unfold bind. by intros ->. Qed.

Lemma bind_Exit {A B} (m : M A) (k : A -> M B) w s c s' :
  m w s = (Exit c, s') -> bind m k w s = (Exit c, s').
Proof. unfold bind. by intros ->. Qed.

(** ** ensureGitRepository and the first lines of main *)

Lemma ensureGitRepository_run (w : World) (s : State) :
  ensureGitRepository w s = (Return (inside_work_tree w), s).
Proof.
  unfold ensureGitRepository, try_catch, inside_work_tree, bind, ask.
  by destruct (git_revparse w [lit "--is-inside-work-tree"]).
Qed.

(** X1. [ensureGitRepository] never throws and never ends the process: a
    rejection of simple-git is caught and becomes the answer [false].  It
    asks nothing, runs no command and leaves the state as it was. *)
Theorem ensureGitRepository_never_fails (w : World) (s : State) :
  ensureGitRepository w s = (Return (inside_work_tree w), s).
Proof. exact (ensureGitRepository_run w s). Qed.

(** X2. Outside a git repository the script prints the one line that says
    so and ends the process with status 1.  That line is the only event:
    nothing is asked, no command is run, no request is sent and nothing is
    written. *)
Theorem script_outside_repository (w : World) (s : State) (e : Exn) :
  git_revparse w [lit "--is-inside-work-tree"] = inl e ->
  script w s = (Exit 1, add_event s (Complained not_a_repository_message)).
Proof.
  intros Hrev. unfold script, try_catch, main.
  erewrite bind_Return by apply ensureGitRepository_run.
  unfold inside_work_tree. rewrite Hrev.
  erewrite bind_Exit; [reflexivity |]. reflexivity.
Qed.

Lemma script_outside_repository_witness :
  let w := {| env_OPENAI_API_KEY := env_OPENAI_API_KEY sample_world;
              process_platform := process_platform sample_world;
              process_cwd := lit "/tmp";
              module_dirname := module_dirname sample_world;
              run := fun _ => exited 128 [];
              spawn_error := None;
              git_revparse := fun _ => inl (Error (lit "fatal: not a git repository"));
              git_log := git_log sample_world;
              chrono_parseDate := sample_dates;
              Date_parse := sample_dates;
              fetch := fetch sample_world;
              inquirer_list := sample_list;
              inquirer_input := sample_input |} in
  outcome script w sample_state = Exit 1
  /\ trace (after script w sample_state)
     = [Complained (lit "This tool must be run inside a Git repository.")].
Proof.
  intros w. unfold outcome, after.
  rewrite (script_outside_repository w sample_state
             (Error (lit "fatal: not a git repository")) eq_refl).
  split; reflexivity.
Defined.

(** ** RangeResolver: the refusals *)

(** X3. With an empty log the commit strategy throws its no-commits error
    at once: no question is asked and no command is run.  A rejection of
    simple-git's [log] is passed on as it is, just as silently. *)
Theorem selectByCommits_without_commits (w : World) (s : State) :
  (git_log w 100 = inr [] -> selectByCommits w s = (Throw NoCommitsFound, s))
  /\ (forall e, git_log w 100 = inl e -> selectByCommits w s = (Throw e, s)).
Proof.
  split; [intros Hlog | intros e Hlog]; by rewrite selectByCommits_run, Hlog.
Qed.

Lemma selectByCommits_without_commits_witness :
  let empty := {| env_OPENAI_API_KEY := None;
                  process_platform := lit "linux";
                  process_cwd := lit "/repo";
                  module_dirname := lit "/opt/diffgen/cli/bin";
                  run := sample_run;
                  spawn_error := None;
                  git_revparse := fun _ => inr (lit "true");
                  git_log := fun _ => inr [];
                  chrono_parseDate := sample_dates;
                  Date_parse := sample_dates;
                  fetch := fetch sample_world;
                  inquirer_list := sample_list;
                  inquirer_input := sample_input |} in
  selectByCommits empty sample_state
  = (Throw (Error (lit "No commits found.")), sample_state).
Proof.
  intros empty.
  exact (proj1 (selectByCommits_without_commits empty sample_state) eq_refl).
Defined.

Lemma filter_lines_nil s :
  List.filter truthy_str (split_lines s) = [] <-> only_line_feeds s = true.
Proof.
  unfold only_line_feeds. induction s as [|u r IH]; [done |].
  cbn [split_lines forallb]. rewrite (N.eqb_sym 10 u).
  destruct (u =? 10) eqn:Hu; cbn [List.filter truthy_str andb]; [exact IH |].
  destruct (split_lines_cons r) as (l & ls & ->). done.
Qed.

(** X4. When the tag query succeeds, the tag strategy throws its no-tags
    error exactly when the query printed nothing but line feeds (nothing at
    all, in particular); the query is then the only event.  A line of
    spaces counts as a tag line. *)
Theorem selectByTags_without_tags (w : World) (s : State) :
  exit_status (run w tags_command) = 0%Z ->
  (outcome selectByTags w s = Throw NoTagsFound
   <-> only_line_feeds (stdout (run w tags_command)) = true)
  /\ (only_line_feeds (stdout (run w tags_command)) = true ->
      after selectByTags w s = add_event s (Executed tags_command)).
Proof.
  intros Hstatus. unfold outcome, after. rewrite selectByTags_run. cbn zeta.
  rewrite Hstatus. cbn [Z.eqb]. rewrite <- filter_lines_nil.
  unfold tag_choices.
  destruct (List.filter truthy_str _) as [|line lines]; cbn [map]; [done |].
  split; [| done]. split; [| done].
  repeat case_match; cbn [fst]; try done.
Qed.

Lemma selectByTags_without_tags_witness :
  let bare := with_run sample_world (fun _ => exited 0 (nl ++ nl)) in
  outcome selectByTags bare sample_state = Throw (Error (lit "No tags found."))
  /\ trace (after selectByTags bare sample_state) = [Executed tags_command]
  /\ outcome selectByTags
       (with_run sample_world (fun _ => exited 0 (lit "   " ++ nl))) sample_state
     <> Throw (Error (lit "No tags found.")).
Proof.
  intros bare.
  destruct (selectByTags_without_tags bare sample_state eq_refl) as [Hiff Hafter].
  split; [by apply Hiff |]. split; [by rewrite Hafter |].
  intros Hthrown.
  by apply (selectByTags_without_tags
              (with_run sample_world (fun _ => exited 0 (lit "   " ++ nl)))
              sample_state eq_refl) in Hthrown.
Defined.

(** ** RangeResolver: what is offered and what is returned *)

Lemma split_lines_one_line l : 10 ∉ l -> split_lines l = [l].
Proof.
  induction l as [|u r IH]; [done |]. intros Hl.
  apply not_elem_of_cons in Hl as [Hu Hr]. cbn [split_lines].
  rewrite (proj2 (N.eqb_neq u 10)) by done. by rewrite IH.
Qed.

Lemma split_first_field tag rest :
  32 ∉ tag -> split_first (lit " | ") (tag ++ lit " | " ++ rest) = tag.
Proof.
  induction tag as [|u t IH]; [done |]. intros Htag.
  apply not_elem_of_cons in Htag as [Hu Ht].
  change ((u :: t) ++ lit " | " ++ rest) with (u :: (t ++ lit " | " ++ rest)).
  cbn [split_first]. rewrite IH by done.
  assert (starts_with (lit " | ") (u :: t ++ lit " | " ++ rest) = false) as ->;
    [| done].
  change (lit " | ") with (32 :: lit "| "). cbn [starts_with].
  by rewrite (proj2 (N.eqb_neq 32 u)).
Qed.

Lemma tag_lines_of_listing entries :
  Forall (fun entry => fst entry <> [] /\ (10 ∉ tag_line entry)) entries ->
  List.filter truthy_str (split_lines (tag_listing entries)) = map tag_line entries.
Proof.
  unfold tag_listing. induction 1 as [|entry entries [Hname Hline] _ IH]; [done |].
  cbn [map concat]. rewrite <- app_assoc, split_lines_app, List.filter_app, IH.
  rewrite (split_lines_one_line _ Hline). cbn [List.filter].
  assert (truthy_str (tag_line entry) = true) as ->; [| done].
  unfold tag_line. by destruct (fst entry).
Qed.

(** X5. The tags that git lists are the tags that are offered, in git's
    order: when the tag query prints one line for every tag, with the name
    (no space in it, as git demands of a tag name), the separator and the
    rest, every line is shown as it is and stands for the name before its
    first separator, also when the subject holds the separator again. *)
Theorem tag_choices_of_listing (w : World) (entries : list (jsstring * jsstring)) :
  stdout (run w tags_command) = tag_listing entries ->
  Forall (fun entry => fst entry <> [] /\ (32 ∉ fst entry) /\ (10 ∉ tag_line entry))
         entries ->
  map value (tag_choices w) = map fst entries
  /\ map name (tag_choices w) = map tag_line entries.
Proof.
  intros Hout Hentries. unfold tag_choices. rewrite Hout.
  rewrite tag_lines_of_listing
    by (eapply Forall_impl; [exact Hentries | by intros ? (? & _ & ?)]).
  rewrite <- !list_fmap_compose. split; [| done].
  apply Forall_fmap_ext_1. eapply Forall_impl; [exact Hentries |].
  intros entry (_ & Hname & _). cbn. by apply split_first_field.
Qed.

Lemma tag_choices_of_listing_witness :
  let entries := [
    (lit "v1.1.0", lit "2024-05-02 | Release 1.1.0");
    (lit "v1.0.0", lit "2024-04-30 | Release 1.0.0")] in
  map value (tag_choices sample_world) = [lit "v1.1.0"; lit "v1.0.0"]
  /\ map name (tag_choices sample_world)
     = [lit "v1.1.0 | 2024-05-02 | Release 1.1.0";
        lit "v1.0.0 | 2024-04-30 | Release 1.0.0"].
Proof.
  intros entries.
  apply (tag_choices_of_listing sample_world entries); [reflexivity |].
  unfold entries.
  repeat (constructor;
            [split; [intros Hnil; vm_compute in Hnil; discriminate |];
             split; apply (bool_decide_unpack _); vm_compute; exact I |]).
  constructor.
Defined.

Lemma mapM_commit_choice_Return entries w s choices s' :
  mapM commit_choice entries w s = (Return choices, s') ->
  map value choices = map hash entries /\ s' = s.
Proof.
  revert choices s'. induction entries as [|entry entries IH]; intros choices s'.
  - by intros [= <- <-].
  - cbn [mapM]. unfold bind at 1. unfold commit_choice at 1.
    unfold bind at 1, ask at 1.
    destruct (Date_parse w (date entry)) as [t|]; cbn [Date_toISOString];
      [| done].
    unfold bind at 1, ret at 1. unfold ret at 1. unfold bind at 1.
    destruct (mapM commit_choice entries w s) as [[rest|e|c] s1] eqn:Hrest;
      try done.
    destruct (IH rest s1 eq_refl) as [Hvalues ->].
    unfold ret. intros [= <- <-]. cbn [map value]. by rewrite Hvalues.
Qed.

(** X6. A range returned by the commit strategy is made of two hashes of
    the log, in full (the seven-letter form is only shown); a range returned
    by the tag strategy is made of two of the tags that were offered. *)
Theorem returned_revisions_were_offered (w : World) (s : State) (range : Range) :
  (outcome selectByCommits w s = Return range ->
   exists log_all,
     git_log w 100 = inr log_all
     /\ from range ∈ map hash log_all /\ to range ∈ map hash log_all)
  /\ (outcome selectByTags w s = Return range ->
      from range ∈ map value (tag_choices w)
      /\ to range ∈ map value (tag_choices w)).
Proof.
  unfold outcome. split.
  - rewrite selectByCommits_run.
    destruct (git_log w 100) as [e|[|entry entries]]; try done.
    destruct (mapM commit_choice _ w s) as [[choices|e|c] s1] eqn:Hchoices;
      try done.
    apply mapM_commit_choice_Return in Hchoices as [Hvalues _]. cbn zeta.
    destruct (choices !! _) as [fromC|] eqn:Hfrom; [| done].
    destruct (choices !! inquirer_list w (lit "to")) as [toC|] eqn:Hto; [| done].
    destruct (decide (value fromC = value toC)); [done |].
    intros [= <-]. eexists. split; [done |]. rewrite <- Hvalues. cbn [from to].
    split; apply list_elem_of_fmap; eexists; (split; [done |]);
      by eapply list_elem_of_lookup_2.
  - rewrite selectByTags_run. cbn zeta.
    destruct (exit_status _ =? 0)%Z; [| done].
    destruct (tag_choices w) as [|c0 cs] eqn:Hchoices; [done |].
    destruct ((c0 :: cs) !! _) as [fromC|] eqn:Hfrom; [| done].
    destruct ((c0 :: cs) !! inquirer_list w (lit "toTag")) as [toC|] eqn:Hto;
      [| done].
    destruct (decide (value fromC = value toC)); [done |].
    intros [= <-]. cbn [from to].
    split; apply list_elem_of_fmap; eexists; (split; [done |]);
      by eapply list_elem_of_lookup_2.
Qed.

Lemma returned_revisions_were_offered_witness :
  old_commit ∈ map hash sample_log /\ new_commit ∈ map hash sample_log
  /\ lit "v1.0.0" ∈ map value (tag_choices sample_world)
  /\ lit "v1.1.0" ∈ map value (tag_choices sample_world).
Proof.
  destruct (returned_revisions_were_offered sample_world sample_state
              {| from := old_commit; to := new_commit |}) as [Hcommits _].
  destruct (returned_revisions_were_offered sample_world sample_state
              {| from := lit "v1.0.0"; to := lit "v1.1.0" |}) as [_ Htags].
  destruct Hcommits as (log_all & Hlog & Hfrom & Hto); [by vm_compute |].
  injection Hlog as <-.
  destruct Htags as [Hfrom' Hto']; [by vm_compute |].
  repeat split; assumption.
Defined.

(** ** RangeResolver: the time interval *)

(** X7. When one of the two dates cannot be parsed the time-interval
    strategy throws its parse error after the two questions and before any
    command is run. *)
Theorem selectByTimeRange_unparsed (w : World) (s : State) :
  chrono_parseDate w (inquirer_input w (lit "start")) = None
  \/ chrono_parseDate w (inquirer_input w (lit "end")) = None ->
  selectByTimeRange w s
  = (Throw DateParseFailure, add_event (add_event s start_question) end_question).
Proof.
  intros Hnone. rewrite selectByTimeRange_run. cbn zeta.
  destruct Hnone as [-> | ->]; [done |].
  by destruct (chrono_parseDate w (inquirer_input w (lit "start"))).
Qed.

Lemma selectByTimeRange_unparsed_witness :
  let w := with_input sample_world (fun _ => lit "some day soon") in
  outcome selectByTimeRange w sample_state
  = Throw (Error (lit "Could not parse dates. Please try again with clearer input."))
  /\ trace (after selectByTimeRange w sample_state) = [start_question; end_question].
Proof.
  intros w. unfold outcome, after.
  rewrite (selectByTimeRange_unparsed w sample_state); [by split |].
  left. reflexivity.
Defined.

Lemma trimStart_head s u r : trimStart s = u :: r -> isWhiteSpace u = false.
Proof.
  induction s as [|v t IH]; cbn [trimStart]; [done |].
  destruct (isWhiteSpace v) eqn:Hv; [exact IH |]. by intros [= <- _].
Qed.

Lemma trimStart_last s : trimStart s <> [] -> last (trimStart s) = last s.
Proof.
  intros Hne. destruct (trimStart_suffix s) as (ws & Hs & _).
  rewrite Hs at 2. rewrite last_app.
  destruct (last (trimStart s)) eqn:Hlast; [done |].
  by apply last_None in Hlast.
Qed.

Lemma last_rev {A} (l : list A) : last (rev l) = head l.
Proof. destruct l as [|x l]; [done |]. cbn [rev]. by rewrite last_snoc. Qed.

Lemma head_rev {A} (l : list A) : head (rev l) = last l.
Proof. by rewrite <- last_rev, rev_involutive. Qed.

(** What [trim] leaves has no white space at either end. *)
Lemma trim_ends s u :
  (head (trim s) = Some u -> isWhiteSpace u = false)
  /\ (last (trim s) = Some u -> isWhiteSpace u = false).
Proof.
  unfold trim, trimEnd. set (t := trimStart s).
  destruct (decide (trimStart (rev t) = [])) as [Hnil | Hne].
  { rewrite Hnil. done. }
  split.
  - rewrite head_rev, (trimStart_last _ Hne), last_rev. subst t.
    destruct (trimStart s) as [|v r] eqn:Ht; [done |]. cbn [head].
    intros [= <-]. by eapply trimStart_head.
  - rewrite last_rev. destruct (trimStart (rev t)) as [|v r] eqn:Ht; [done |].
    cbn [head]. intros [= <-]. by eapply trimStart_head.
Qed.

(** X8. When a boundary query of the time-interval strategy succeeds but
    prints nothing (no commit before the date), the strategy throws its
    no-revision error; so the two revisions of a range it returns are never
    empty, and they carry no white space at their ends (the line feed git
    prints is gone). *)
Theorem selectByTimeRange_revisions (w : World) (s : State) (ts te : Z) :
  chrono_parseDate w (inquirer_input w (lit "start")) = Some ts ->
  chrono_parseDate w (inquirer_input w (lit "end")) = Some te ->
  (exit_status (run w (before_command (toISOString (Z.max ts te)))) = 0%Z ->
   exit_status (run w (before_command (toISOString (Z.min ts te)))) = 0%Z ->
   last_commit_before w (Z.max ts te) = [] \/ last_commit_before w (Z.min ts te) = [] ->
   outcome selectByTimeRange w s = Throw NoRevisionForTimestamp)
  /\ (forall range,
        outcome selectByTimeRange w s = Return range ->
        from range <> [] /\ to range <> []
        /\ (forall u, head (from range) = Some u \/ last (from range) = Some u
                      \/ head (to range) = Some u \/ last (to range) = Some u ->
                      isWhiteSpace u = false)).
Proof.
  intros Hs He. unfold outcome. rewrite selectByTimeRange_run, Hs, He. cbn zeta.
  split.
  - intros -> -> Hblank. cbn [Z.eqb].
    destruct Hblank as [-> | ->]; [done |].
    by destruct (last_commit_before w (Z.max ts te)).
  - intros range.
    destruct (exit_status _ =? 0)%Z; [| done].
    destruct (exit_status _ =? 0)%Z; [| done].
    destruct (last_commit_before w (Z.max ts te)) as [|u1 r1] eqn:Hto; [done |].
    destruct (last_commit_before w (Z.min ts te)) as [|u2 r2] eqn:Hfrom; [done |].
    cbn [truthy_str negb orb fst]. intros [= <-]. cbn [from to].
    split; [done |]. split; [done |].
    rewrite <- Hto, <- Hfrom. unfold last_commit_before.
    intros u [H | [H | [H | H]]];
      first [exact (proj1 (trim_ends _ u) H) | exact (proj2 (trim_ends _ u) H)].
Qed.

Lemma selectByTimeRange_revisions_witness :
  outcome selectByTimeRange since_new_year sample_state
  = Throw (Error (lit "Could not find commits for the given time range."))
  /\ (forall range,
        outcome selectByTimeRange sample_world sample_state = Return range ->
        from range <> [] /\ to range <> []).
Proof.
  split.
  - apply (selectByTimeRange_revisions since_new_year sample_state
             1704067200000%Z 1717200000000%Z);
      try (vm_compute; reflexivity).
    right. vm_compute. reflexivity.
  - intros range Hrange.
    destruct (selectByTimeRange_revisions sample_world sample_state
                1714521600000%Z 1717200000000%Z) as [_ Hreturned];
      try (vm_compute; reflexivity).
    destruct (Hreturned range Hrange) as (Hfrom & Hto & _). by split.
Defined.

(** ** HistoryCollector: a query that fails *)

(** X9. The history collector runs its three queries in the order log,
    changed files, statistics, and stops at the first that does not exit
    with status 0: it then throws the command-failed error of that query and
    the later queries are not run.  It returns exactly when all three
    succeed. *)
Theorem collectGitHistoryText_stops_at_failure (w : World) (s : State) (range : Range) :
  new_events s (after (collectGitHistoryText range) w s)
  = map Executed (run_until_failure w (history_commands range))
  /\ match first_failing w (history_commands range) with
     | Some command =>
         outcome (collectGitHistoryText range) w s = Throw (CommandFailed command)
     | None => exists history,
         outcome (collectGitHistoryText range) w s = Return history
     end.
Proof.
  unfold outcome, after, collectGitHistoryText, bind, history_commands.
  rewrite !execSync_run. cbn [first_failing run_until_failure map].
  destruct (exit_status (run w (log_command _ _)) =? 0)%Z;
    [| split; [apply new_events_add_event | done]].
  destruct (exit_status (run w (files_command _ _)) =? 0)%Z;
    [| split; [apply new_events_add_event2 | done]].
  assert (forall e1 e2 e3,
            new_events s (add_event (add_event (add_event s e1) e2) e3)
            = [e1; e2; e3]) as Hthree.
  { intros. unfold new_events, add_event. cbn [trace].
    rewrite <- !app_assoc. by rewrite drop_app_length. }
  destruct (exit_status (run w (stats_command _ _)) =? 0)%Z;
    (split; [apply Hthree |]); [by eexists | done].
Qed.

Lemma collectGitHistoryText_stops_at_failure_witness :
  let range := {| from := lit "v1.0.0"; to := lit "v9.9.9" |} in
  let broken := with_run sample_world (fun command =>
    if decide (command = files_command (from range) (to range))
    then exited 128 [] else sample_run command) in
  outcome (collectGitHistoryText range) broken sample_state
  = Throw (Error (lit "Command failed: git diff --name-status v1.0.0..v9.9.9"))
  /\ trace (after (collectGitHistoryText range) broken sample_state)
     = [Executed (log_command (lit "v1.0.0") (lit "v9.9.9"));
        Executed (files_command (lit "v1.0.0") (lit "v9.9.9"))].
Proof.
  intros range broken.
  destruct (collectGitHistoryText_stops_at_failure broken sample_state range)
    as [Hevents Houtcome].
  split; [exact Houtcome | exact Hevents].
Defined.

(** ** ChangelogGenerator: what is sent and what comes back *)

(** The history is the tail of the prompt, after the fixed instructions. *)
Lemma basePrompt_tail historyMarkdown :
  basePrompt historyMarkdown = instructions ++ historyMarkdown.
Proof. vm_compute. reflexivity. Qed.

Lemma callAzureOpenAI_events historyMarkdown w s :
  new_events s (after (callAzureOpenAI historyMarkdown) w s)
  = (if key_missing (env_OPENAI_API_KEY w) then [key_question] else [])
    ++ (if key_missing (credential w) then []
        else [Fetched (request_of w historyMarkdown)]).
Proof.
  unfold after. rewrite callAzureOpenAI_run. cbn zeta.
  assert (forall (o1 o2 : Outcome jsstring) (b : bool) (t : State),
             (if b then (o1, t) else (o2, t)).2 = t) as Hif by (by intros ? ? []).
  destruct (key_missing (credential w)).
  - cbn [snd]. rewrite app_nil_r.
    destruct (key_missing (env_OPENAI_API_KEY w));
      [apply new_events_add_event |].
    unfold new_events. by rewrite drop_all.
  - assert (forall t, (match fetch w (request_of w historyMarkdown) with
        | inl e => (Throw e, t)
        | inr res =>
            if ok res then
              match json res with
              | inl e => (Throw e, t)
              | inr data =>
                  match js_or (content_of data) (JStr []) with
                  | JStr c =>
                      if truthy_str (trim c) then (Return c, t)
                      else (Throw EmptyCompletion, t)
                  | _ => (Throw (TypeError (lit "content.trim is not a function")), t)
                  end
              end
            else (Throw (CompletionServiceError res), t)
        end).2 = t) as ->.
    { intros t. repeat case_match; done. }
    destruct (key_missing (env_OPENAI_API_KEY w));
      [apply new_events_add_event2 | apply new_events_add_event].
Qed.

(** X10. What [callAzureOpenAI] does to the outside, for every history
    text: it asks for the key exactly when the environment has none (or an
    empty one), and sends at most one request, exactly when it has a key.
    That request is a POST to the fixed endpoint; its [api-key] header is
    the key of the environment when there is one and the typed key
    otherwise; its prompt is the fixed instructions followed by the history
    text, unchanged, as its tail. *)
Theorem callAzureOpenAI_asks_and_sends (w : World) (s : State) (historyMarkdown : jsstring) :
  let req := request_of w historyMarkdown in
  new_events s (after (callAzureOpenAI historyMarkdown) w s)
  = (if key_missing (env_OPENAI_API_KEY w) then [key_question] else [])
    ++ (if key_missing (credential w) then [] else [Fetched req])
  /\ url req = endpoint /\ method req = lit "POST"
  /\ prompt_of req = JStr (instructions ++ historyMarkdown)
  /\ (forall key, env_OPENAI_API_KEY w = Some key -> key <> [] ->
        header req (lit "api-key") = Some key)
  /\ (key_missing (env_OPENAI_API_KEY w) = true ->
      inquirer_input w (lit "apiKey") <> [] ->
      header req (lit "api-key") = Some (inquirer_input w (lit "apiKey"))).
Proof.
  cbn zeta. split; [apply callAzureOpenAI_events |].
  split; [done |]. split; [done |]. split.
  - unfold prompt_of, request_of, completion_request, payload. cbn.
    by rewrite basePrompt_tail.
  - unfold request_of, credential. split.
    + intros key -> Hkey. cbn. by destruct key.
    + by intros ->.
Qed.

Lemma callAzureOpenAI_asks_and_sends_witness :
  let history := lit "# Git History" in
  let typing := with_env sample_world None in
  new_events sample_state (after (callAzureOpenAI history) sample_world sample_state)
  = [Fetched (request_of sample_world history)]
  /\ header (request_of sample_world history) (lit "api-key") = Some (lit "env-key")
  /\ new_events sample_state (after (callAzureOpenAI history) typing sample_state)
     = [key_question; Fetched (request_of typing history)]
  /\ header (request_of typing history) (lit "api-key") = Some (lit "typed-key").
Proof.
  intros history typing.
  destruct (callAzureOpenAI_asks_and_sends sample_world sample_state history)
    as (Hevents & _ & _ & _ & Henv & _).
  destruct (callAzureOpenAI_asks_and_sends typing sample_state history)
    as (Hevents' & _ & _ & _ & _ & Htyped).
  split; [exact Hevents |].
  split; [apply Henv; [reflexivity | discriminate] |].
  split; [exact Hevents' |].
  apply Htyped; [reflexivity | discriminate].
Defined.

(** X11. The text of the model is returned as it came: when the service
    answers with a success status and the content field is a string that is
    not blank, [callAzureOpenAI] returns that string, white space at its
    ends included, after one request. *)
Theorem callAzureOpenAI_returns_content_unchanged
    (w : World) (s : State) (historyMarkdown : jsstring)
    (res : Response) (data : JSValue) (content : jsstring) :
  key_missing (credential w) = false ->
  fetch w (request_of w historyMarkdown) = inr res ->
  ok res = true ->
  json res = inr data ->
  content_of data = JStr content ->
  forallb isWhiteSpace content = false ->
  outcome (callAzureOpenAI historyMarkdown) w s = Return content.
Proof.
  intros Hkey Hfetch Hok Hjson Hcontent Hblank. unfold outcome.
  rewrite callAzureOpenAI_run. cbn zeta.
  rewrite Hkey, Hfetch, Hok, Hjson, Hcontent.
  assert (js_or (JStr content) (JStr []) = JStr content) as ->.
  { unfold js_or. by destruct content. }
  destruct (trim content) eqn:Htrim; [| done].
  apply trim_nil_iff in Htrim. congruence.
Qed.

Lemma callAzureOpenAI_returns_content_unchanged_witness :
  let padded := nl ++ lit "  # Changes  " ++ nl in
  let service := fun _ : Request =>
    inr (responded 200 (lit "OK") (lit "{...}") (inr (completion (JStr padded)))) in
  outcome (callAzureOpenAI (lit "# Git History"))
          (with_fetch sample_world service) sample_state
  = Return padded.
Proof.
  intros padded service.
  eapply (callAzureOpenAI_returns_content_unchanged
            (with_fetch sample_world service)); reflexivity.
Defined.

(** X12. Answers the generator cannot read are errors, never a changelog:
    a request that is rejected and a success body that is not JSON throw the
    rejection as it is; a content field that is truthy but not a string (a
    number, an array of parts, an object) throws a [TypeError], because the
    script calls [trim] on it. *)
Theorem callAzureOpenAI_unreadable_answer
    (w : World) (s : State) (historyMarkdown : jsstring) :
  key_missing (credential w) = false ->
  (forall e, fetch w (request_of w historyMarkdown) = inl e ->
     outcome (callAzureOpenAI historyMarkdown) w s = Throw e)
  /\ (forall res,
        fetch w (request_of w historyMarkdown) = inr res -> ok res = true ->
        (forall e, json res = inl e ->
           outcome (callAzureOpenAI historyMarkdown) w s = Throw e)
        /\ (forall data, json res = inr data ->
              truthy (content_of data) = true ->
              (forall c, content_of data <> JStr c) ->
              outcome (callAzureOpenAI historyMarkdown) w s
              = Throw (TypeError (lit "content.trim is not a function")))).
Proof.
  intros Hkey. unfold outcome. rewrite callAzureOpenAI_run. cbn zeta.
  rewrite Hkey. split.
  - by intros e ->.
  - intros res -> ->. split; [by intros e -> |].
    intros data -> Htruthy Hstring. unfold js_or. rewrite Htruthy.
    destruct (content_of data); try done. by destruct (Hstring s0).
Qed.

Lemma callAzureOpenAI_unreadable_answer_witness :
  let parts := JArr [JObj [(lit "type", JStr (lit "text"));
                           (lit "text", JStr (lit "# Changes"))]] in
  let service := fun _ : Request =>
    inr (responded 200 (lit "OK") (lit "{...}") (inr (completion parts))) in
  let offline := fun _ : Request =>
    @inl Exn Response (TypeError (lit "fetch failed")) in
  outcome (callAzureOpenAI (lit "# Git History"))
          (with_fetch sample_world service) sample_state
  = Throw (TypeError (lit "content.trim is not a function"))
  /\ outcome (callAzureOpenAI (lit "# Git History"))
             (with_fetch sample_world offline) sample_state
     = Throw (TypeError (lit "fetch failed")).
Proof.
  intros parts service offline. split.
  - destruct (callAzureOpenAI_unreadable_answer (with_fetch sample_world service)
                sample_state (lit "# Git History") eq_refl) as [_ Hbody].
    destruct (Hbody _ eq_refl eq_refl) as [_ Hcontent].
    apply (Hcontent _ eq_refl); [reflexivity | discriminate].
  - destruct (callAzureOpenAI_unreadable_answer (with_fetch sample_world offline)
                sample_state (lit "# Git History") eq_refl) as [Hrejected _].
    by apply Hrejected.
Defined.

(** ** SiteWriter: directories and refusals *)

Lemma drop_until_slash_app x y :
  47 ∉ x -> drop_until_slash (x ++ 47 :: y) = 47 :: y.
Proof.
  induction x as [|u r IH]; [done |]. intros Hx.
  apply not_elem_of_cons in Hx as [Hu Hr]. cbn [app drop_until_slash].
  rewrite (proj2 (N.eqb_neq u 47)) by done. auto.
Qed.

(** A file of a directory lies in that directory. *)
Lemma parent_dir_join a name :
  normalised a = true -> 47 ∉ name -> parent_dir (path_join a name) = a.
Proof.
  intros Ha Hname. unfold normalised in Ha. apply orb_true_iff in Ha.
  assert (47 ∉ rev name) as Hrev.
  { intros Hin. apply Hname, list_elem_of_In, in_rev. by apply list_elem_of_In. }
  destruct Ha as [->%bool_decide_eq_true | Ha].
  - unfold parent_dir. change (path_join (lit "/") name) with (47 :: name).
    cbn [rev]. change [47] with (47 :: @nil N) at 1.
    rewrite (drop_until_slash_app _ [] Hrev). done.
  - destruct (last a) as [u|] eqn:Hlast; [| done].
    apply negb_true_iff, N.eqb_neq in Ha.
    apply last_Some in Hlast as [a' ->].
    unfold path_join. rewrite last_snoc, (proj2 (N.eqb_neq u 47)) by done.
    unfold parent_dir. change (lit "/") with [47].
    rewrite !rev_app_distr. cbn [rev app]. rewrite <- app_assoc. cbn [app].
    rewrite (drop_until_slash_app _ _ Hrev). cbn [drop_slashes].
    rewrite N.eqb_refl.
    rewrite (proj2 (N.eqb_neq u 47)) by done.
    change (u :: rev a') with ([u] ++ rev a').
    rewrite rev_app_distr, rev_involutive. cbn [rev app].
    by destruct a'.
Qed.

Lemma normalised_site_dir root : normalised (site_dir root) = true.
Proof.
  unfold normalised. rewrite site_dir_eq, last_app. apply orb_true_r.
Qed.

Ltac no_slash := apply (bool_decide_unpack _); vm_compute; exact I.

Lemma parent_dir_changelog root :
  normalised root = true -> parent_dir (changelog_path root) = root.
Proof. intros. apply parent_dir_join; [done | no_slash]. Qed.

Lemma parent_dir_site_dir root :
  normalised root = true -> parent_dir (site_dir root) = root.
Proof. intros. apply parent_dir_join; [done | no_slash]. Qed.

Lemma parent_dir_readme root : parent_dir (readme_path root) = site_dir root.
Proof. apply parent_dir_join; [apply normalised_site_dir | no_slash]. Qed.

Lemma parent_dir_index_html root :
  parent_dir (index_html_path root) = site_dir root.
Proof. apply parent_dir_join; [apply normalised_site_dir | no_slash]. Qed.

Lemma site_dir_not_readme root : site_dir root <> readme_path root.
Proof.
  rewrite site_dir_eq, readme_path_eq. by intros ?%app_inv_head.
Qed.

Lemma site_dir_not_index root : site_dir root <> index_html_path root.
Proof.
  rewrite site_dir_eq, index_html_path_eq. by intros ?%app_inv_head.
Qed.

(** X13. [createDocsifySite] touches the readme and the shell of the site
    and nothing else: every other file keeps its bytes, whatever the outcome,
    no directory goes away and the site directory is the only one that can
    appear. *)
Theorem createDocsifySite_frame (w : World) (s : State) (root md : jsstring) :
  let s' := after (createDocsifySite root md) w s in
  (forall p, p <> readme_path root -> p <> index_html_path root ->
     files s' !! p = files s !! p)
  /\ (dirs s' = dirs s \/ dirs s' = {[site_dir root]} ∪ dirs s).
Proof.
  cbn zeta. split; [intros; by apply createDocsifySite_other_files |].
  unfold after. site_writer_cases; cbn [snd dirs]; auto.
Qed.

Lemma createDocsifySite_frame_witness :
  let s := {| files := {[ lit "/repo/notes.txt" := utf8 (lit "keep") ]};
              dirs := {[ lit "/repo" ]}; trace := [] |} in
  files (after (createDocsifySite (lit "/repo") sample_changelog) sample_world s)
    !! lit "/repo/notes.txt"
  = Some (utf8 (lit "keep")).
Proof.
  intros s.
  destruct (createDocsifySite_frame sample_world s (lit "/repo") sample_changelog)
    as [Hfiles _].
  rewrite Hfiles; [reflexivity | |]; intros Hsame; vm_compute in Hsame; discriminate.
Defined.

Lemma exists_in_false s p :
  exists_in s p = false <-> (p ∉ dirs s) /\ files s !! p = None.
Proof.
  unfold exists_in. rewrite orb_false_iff, !bool_decide_eq_false.
  rewrite <- eq_None_not_Some. done.
Qed.

Ltac fs_facts :=
  repeat match goal with
    | H : bool_decide _ = true |- _ =>
        apply bool_decide_eq_true_1 in H; cbn [files dirs] in H
    | H : bool_decide _ = false |- _ =>
        apply bool_decide_eq_false_1 in H; cbn [files dirs] in H
    | H : exists_in _ _ = true |- _ =>
        apply exists_in_true in H; cbn [files dirs] in H
    | H : exists_in _ _ = false |- _ =>
        apply exists_in_false in H; cbn [files dirs] in H; destruct H
    end.

Lemma createDocsifySite_on_clean_tree (w : World) (s : State) (root md : jsstring) :
  normalised root = true ->
  root ∈ dirs s ->
  (site_dir root ∈ dirs s) \/ exists_in s (site_dir root) = false ->
  readme_path root ∉ dirs s ->
  exists s',
    createDocsifySite root md w s = (Return (site_dir root), s')
    /\ site_dir root ∈ dirs s'
    /\ files s' !! readme_path root = Some (utf8 md)
    /\ (exists_in s (index_html_path root) = false ->
        files s' !! index_html_path root = Some (utf8 index_html)).
Proof.
  intros Hnorm Hroot Hsite Hreadme.
  pose proof (readme_not_index root) as Hne1.
  pose proof (site_dir_not_readme root) as Hne2.
  pose proof (site_dir_not_index root) as Hne3.
  unfold createDocsifySite, bind, existsSync, mkdirSync, writeFileSync, ret.
  cbn beta iota.
  rewrite (parent_dir_site_dir root Hnorm), parent_dir_readme, parent_dir_index_html.
  repeat match goal with
    | |- context [if ?b then _ else _] => destruct b eqn:?; cbn beta iota
    end.
  all: fs_facts.
  all: rewrite ?elem_of_union, ?elem_of_singleton in *.
  all: try (exfalso; intuition congruence).
  all: eexists; (split; [reflexivity |]); cbn [files dirs].
  all: rewrite ?elem_of_union, ?elem_of_singleton.
  all: (split; [intuition congruence |]).
  all: (split; [by rewrite ?lookup_insert_ne, lookup_insert_eq by done |]).
  all: try (intros _; by rewrite lookup_insert_eq).
  all: intros [Hdir Hfile]%exists_in_false; exfalso.
  all: match goal with
       | H : _ \/ is_Some (<[_:=_]> _ !! _) |- _ =>
           rewrite lookup_insert_ne, Hfile in H by done;
           destruct H as [H | [? H]]; [| done]
       end.
  all: intuition congruence.
Qed.

(** X14. On a repository root that is a directory, with nothing but
    directories and files where they belong (the site directory is absent or
    is a directory, the readme is not a directory), [createDocsifySite]
    succeeds for every payload: it returns the path of the site directory,
    that directory exists afterwards, the readme holds the payload and a
    shell that was missing holds the fixed page. *)
Theorem createDocsifySite_succeeds (w : World) (s : State) (root md : jsstring) :
  normalised root = true ->
  root ∈ dirs s ->
  (site_dir root ∈ dirs s) \/ exists_in s (site_dir root) = false ->
  readme_path root ∉ dirs s ->
  exists s',
    createDocsifySite root md w s = (Return (site_dir root), s')
    /\ site_dir root ∈ dirs s'
    /\ files s' !! readme_path root = Some (utf8 md)
    /\ (exists_in s (index_html_path root) = false ->
        files s' !! index_html_path root = Some (utf8 index_html)).
Proof. exact (createDocsifySite_on_clean_tree w s root md). Qed.

Lemma createDocsifySite_succeeds_witness :
  let s := {| files := {[ lit "/repo/notes.txt" := utf8 (lit "keep") ]};
              dirs := {[ lit "/repo" ]}; trace := [] |} in
  exists s',
    createDocsifySite (lit "/repo") sample_changelog sample_world s
    = (Return (lit "/repo/.diffgen_site"), s')
    /\ files s' !! lit "/repo/.diffgen_site/README.md" = Some (utf8 sample_changelog)
    /\ files s' !! lit "/repo/.diffgen_site/index.html" = Some (utf8 index_html).
Proof.
  intros s.
  destruct (createDocsifySite_succeeds sample_world s (lit "/repo") sample_changelog)
    as (s' & Hrun & _ & Hreadme & Hshell).
  - reflexivity.
  - apply (bool_decide_unpack _). vm_compute. exact I.
  - right. vm_compute. reflexivity.
  - apply (bool_decide_unpack _). vm_compute. exact I.
  - exists s'. split; [exact Hrun |]. split; [exact Hreadme |].
    apply Hshell. vm_compute. reflexivity.
Defined.

Lemma createDocsifySite_ENOTDIR
    (w : World) (s : State) (root md : jsstring) (content : list byte) :
  files s !! site_dir root = Some content ->
  site_dir root ∉ dirs s ->
  readme_path root ∉ dirs s ->
  createDocsifySite root md w s
  = (Throw (SystemError ENOTDIR (lit "open") (readme_path root)), s).
Proof.
  intros Hfile Hsite Hreadme.
  unfold createDocsifySite, bind, existsSync, mkdirSync, writeFileSync, ret.
  cbn beta iota. rewrite (exists_in_file _ _ _ Hfile). cbn beta iota.
  rewrite (bool_decide_eq_false_2 _ Hreadme).
  unfold no_parent. rewrite parent_dir_readme.
  rewrite (bool_decide_eq_false_2 _ Hsite), Hfile.
  by rewrite (bool_decide_eq_true_2 (is_Some (Some content))) by by eexists.
Qed.

(** X15. [createDocsifySite] takes whatever exists at the path of the site
    directory for that directory.  When a regular file is there, no
    directory is made, the write of the readme fails with ENOTDIR, and
    nothing is written or changed. *)
Theorem createDocsifySite_file_in_the_way
    (w : World) (s : State) (root md : jsstring) (content : list byte) :
  files s !! site_dir root = Some content ->
  site_dir root ∉ dirs s ->
  readme_path root ∉ dirs s ->
  createDocsifySite root md w s
  = (Throw (SystemError ENOTDIR (lit "open") (readme_path root)), s).
Proof. exact (createDocsifySite_ENOTDIR w s root md content). Qed.

Lemma createDocsifySite_file_in_the_way_witness :
  let s := {| files := {[ lit "/repo/.diffgen_site" := utf8 (lit "not a directory") ]};
              dirs := {[ lit "/repo" ]}; trace := [] |} in
  createDocsifySite (lit "/repo") sample_changelog sample_world s
  = (Throw (SystemError ENOTDIR (lit "open") (lit "/repo/.diffgen_site/README.md")), s).
Proof.
  intros s.
  apply (createDocsifySite_file_in_the_way sample_world s (lit "/repo")
           sample_changelog (utf8 (lit "not a directory"))).
  - vm_compute. reflexivity.
  - apply (bool_decide_unpack _). vm_compute. exact I.
  - apply (bool_decide_unpack _). vm_compute. exact I.
Defined.

(** ** SitePublisher *)

Lemma first_existing_find candidates w s :
  first_existing candidates w s = (Return (List.find (exists_in s) candidates), s).
Proof.
  induction candidates as [|candidate rest IH]; [done |].
  cbn [first_existing List.find]. unfold bind, existsSync.
  by destruct (exists_in s candidate).
Qed.

Lemma resolveDocsifyBin_run w s :
  resolveDocsifyBin w s
  = (Return (List.find (exists_in s) (docsify_candidates w)), s).
Proof.
  unfold resolveDocsifyBin, bind, ask. cbn beta iota zeta.
  apply first_existing_find.
Qed.

(** X16. [resolveDocsifyBin] answers with the first of its three places at
    which something exists: the CLI's own [node_modules/.bin], then its
    [docsify-cli/bin], then the [node_modules/.bin] of the working directory
    (with [docsify.cmd] for the two [.bin] places on win32).  So no earlier
    place exists when a later one is chosen, the answer is null exactly when
    none exists, and looking changes nothing. *)
Theorem resolveDocsifyBin_first_existing (w : World) (s : State) :
  exists answer,
    resolveDocsifyBin w s = (Return answer, s)
    /\ match answer with
       | Some bin =>
           exists earlier later,
             docsify_candidates w = earlier ++ bin :: later
             /\ exists_in s bin = true
             /\ Forall (fun p => exists_in s p = false) earlier
       | None => Forall (fun p => exists_in s p = false) (docsify_candidates w)
       end.
Proof.
  eexists. split; [apply resolveDocsifyBin_run |].
  generalize (docsify_candidates w). intros candidates.
  induction candidates as [|candidate rest IH]; [by constructor |].
  cbn [List.find]. destruct (exists_in s candidate) eqn:Hthere.
  - exists [], rest. by repeat split.
  - destruct (List.find (exists_in s) rest) as [bin|].
    + destruct IH as (earlier & later & -> & Hbin & Hearlier).
      exists (candidate :: earlier), later. repeat split; [done |].
      by constructor.
    + by constructor.
Qed.

Example bundled_binary_is_preferred :
  let both := {| files := {[ lit "/opt/diffgen/cli/node_modules/.bin/docsify" := [];
                             lit "/repo/node_modules/.bin/docsify" := [] ]};
                 dirs := ∅; trace := [] |} in
  let local := {| files := {[ lit "/repo/node_modules/.bin/docsify" := [] ]};
                  dirs := ∅; trace := [] |} in
  outcome resolveDocsifyBin sample_world both
  = Return (Some (lit "/opt/diffgen/cli/node_modules/.bin/docsify"))
  /\ outcome resolveDocsifyBin sample_world local
     = Return (Some (lit "/repo/node_modules/.bin/docsify"))
  /\ outcome resolveDocsifyBin sample_world sample_state = Return None.
Proof. repeat split; vm_compute; reflexivity. Qed.

Lemma serveDocsify_run (w : World) (s : State) (siteDir : jsstring) (port : N) :
  outcome (serveDocsify siteDir port) w s = Return tt
  /\ files (after (serveDocsify siteDir port) w s) = files s
  /\ dirs (after (serveDocsify siteDir port) w s) = dirs s
  /\ new_events s (after (serveDocsify siteDir port) w s)
     = Spawned (docsify_command w s) (serve_args siteDir port)
         :: Logged (serving_line port) :: spawn_hints w siteDir port.
Proof.
  unfold outcome, after, serveDocsify, docsify_command, spawn_hints.
  erewrite bind_Return by apply resolveDocsifyBin_run.
  unfold bind, spawn, console_log, console_error, emit, ask, ret.
  destruct (List.find (exists_in s) (docsify_candidates w)) as [bin|];
    destruct (spawn_error w) as [msg|]; cbn [fst snd default from_option id];
    (split; [done |]); (split; [done |]); (split; [done |]);
    unfold new_events, add_event; cbn [trace files dirs];
    rewrite <- ?app_assoc; by rewrite drop_app_length.
Qed.

(** X17. [serveDocsify] never fails.  It spawns one child, the binary that
    [resolveDocsifyBin] found or else [docsify] from the PATH, with the
    arguments [serve], the site directory, [-p] and the port, and prints
    where the changelog is served; when the child cannot be started it
    prints two more lines with a hint, and still returns.  It writes
    nothing. *)
Theorem serveDocsify_never_fails (w : World) (s : State) (siteDir : jsstring) (port : N) :
  outcome (serveDocsify siteDir port) w s = Return tt
  /\ files (after (serveDocsify siteDir port) w s) = files s
  /\ dirs (after (serveDocsify siteDir port) w s) = dirs s
  /\ new_events s (after (serveDocsify siteDir port) w s)
     = Spawned (docsify_command w s) (serve_args siteDir port)
         :: Logged (serving_line port) :: spawn_hints w siteDir port.
Proof. exact (serveDocsify_run w s siteDir port). Qed.

Example serve_without_docsify :
  let w := {| env_OPENAI_API_KEY := None; process_platform := lit "linux";
              process_cwd := lit "/repo"; module_dirname := lit "/opt/diffgen/cli/bin";
              run := sample_run; spawn_error := Some (lit "spawn docsify ENOENT");
              git_revparse := fun _ => inr (lit "true");
              git_log := fun _ => inr sample_log;
              chrono_parseDate := sample_dates; Date_parse := sample_dates;
              fetch := fun _ => inr sample_response;
              inquirer_list := sample_list; inquirer_input := sample_input |} in
  serveDocsify (lit "/repo/.diffgen_site") 3000 w sample_state
  = (Return tt,
     {| files := ∅; dirs := {[ lit "/repo" ]};
        trace := [
          Spawned (lit "docsify")
                  [lit "serve"; lit "/repo/.diffgen_site"; lit "-p"; lit "3000"];
          Logged (nl ++ lit "Serving changelog at http://localhost:3000 (press Ctrl+C to stop)"
                     ++ nl);
          Complained (lit "Failed to start docsify serve: spawn docsify ENOENT");
          Complained (lit "Tip: install globally with " ++ dq
                        ++ lit "npm i -g docsify-cli" ++ dq ++ lit " or run:" ++ nl
                        ++ lit "  npx docsify-cli serve /repo/.diffgen_site -p 3000")] |}).
Proof. vm_compute. reflexivity. Qed.

(** ** The orchestrator: how a run ends *)

Lemma createDocsifySite_no_exit root md w s c :
  outcome (createDocsifySite root md) w s <> Exit c.
Proof. unfold outcome. site_writer_cases; done. Qed.

Lemma publish_no_exit root md w s c : outcome (publish root md) w s <> Exit c.
Proof.
  unfold outcome, publish, bind.
  destruct (writeFileSync _ _ w s) as [[[]|e|c'] s1] eqn:Hwrite; cbn [fst];
    [| done |].
  2: { unfold writeFileSync in Hwrite. by repeat case_match. }
  destruct (console_log _ w s1) as [[[]|e|c'] s2] eqn:Hlog; try done.
  destruct (createDocsifySite _ _ w s2) as [[d|e|c'] s3] eqn:Hsite; cbn [fst];
    [| done |].
  - pose proof (serveDocsify_run w s3 d 3000) as [Hserve _].
    unfold outcome in Hserve. by rewrite Hserve.
  - pose proof (createDocsifySite_no_exit root md w s2 c') as Hno.
    unfold outcome in Hno. by rewrite Hsite in Hno.
Qed.

(** The complaint of the last statement of the script about an error. *)
Lemma script_catches w s e s1 :
  main w s = (Throw e, s1) ->
  script w s
  = (Exit 1, add_event s1 (if truthy_str (Exn_message e)
                           then Complained (Exn_message e) else ComplainedOf e)).
Proof.
  intros Hmain. unfold script, try_catch. rewrite Hmain.
  unfold bind, console_error, emit, process_exit.
  by destruct (truthy_str (Exn_message e)).
Qed.

(** X18. No exception leaves the script.  Whatever [main] throws is caught
    by the last statement, which prints the message of the error (the error
    itself when it has no message) as the last event and ends the process
    with status 1; and whenever the process is ended by the script, the
    status is not 0. *)
Theorem script_catches_everything (w : World) (s : State) :
  (forall e, outcome script w s <> Throw e)
  /\ (forall code, outcome script w s = Exit code -> code <> 0%Z)
  /\ (forall e s1,
        main w s = (Throw e, s1) ->
        outcome script w s = Exit 1
        /\ trace (after script w s)
           = trace s1 ++ [if truthy_str (Exn_message e)
                          then Complained (Exn_message e) else ComplainedOf e]).
Proof.
  split; [| split].
  - intros e. unfold outcome. destruct (main w s) as [[[]|e'|c] s1] eqn:Hmain.
    + unfold script, try_catch. by rewrite Hmain.
    + by rewrite (script_catches _ _ _ _ Hmain).
    + unfold script, try_catch. by rewrite Hmain.
  - intros code. unfold outcome.
    destruct (main w s) as [[[]|e'|c] s1] eqn:Hmain.
    + unfold script, try_catch. by rewrite Hmain.
    + rewrite (script_catches _ _ _ _ Hmain). by intros [= <-].
    + unfold script, try_catch. rewrite Hmain. cbn [fst]. intros [= <-].
      rewrite main_is_generate_then_publish in Hmain. unfold bind in Hmain.
      destruct (generate w s) as [[g|e|c'] sg] eqn:Hgen.
      * pose proof (publish_no_exit g.1 g.2 w sg c) as Hno.
        unfold outcome in Hno. by rewrite Hmain in Hno.
      * done.
      * injection Hmain as <- <-.
        destruct (read_only_generate w s) as (evs & _ & _ & Hexit).
        apply Hexit. unfold outcome. by rewrite Hgen.
  - intros e s1 Hmain. unfold outcome, after.
    by rewrite (script_catches _ _ _ _ Hmain).
Qed.

Lemma script_catches_everything_witness :
  let rejected :=
    with_fetch sample_world
      (fun _ => inr (responded 401 (lit "Unauthorized") (lit "bad key")
                       (inl (SyntaxError [])))) in
  outcome script rejected sample_state = Exit 1
  /\ last (trace (after script rejected sample_state))
     = Some (Complained (lit "Azure OpenAI error: 401 Unauthorized - bad key")).
Proof.
  intros rejected.
  destruct (script_catches_everything rejected sample_state) as (_ & _ & Hcaught).
  destruct (Hcaught (CompletionServiceError
                       (responded 401 (lit "Unauthorized") (lit "bad key")
                          (inl (SyntaxError []))))
                    (after main rejected sample_state)) as [Hexit Htrace].
  { vm_compute. reflexivity. }
  split; [exact Hexit |]. rewrite Htrace, last_snoc. vm_compute. reflexivity.
Defined.

(** ** The orchestrator: the output files *)

Lemma changelog_not_site_dir root : changelog_path root <> site_dir root.
Proof. rewrite changelog_path_eq, site_dir_eq. by intros ?%app_inv_head. Qed.

Lemma exists_in_same s s' p :
  dirs s' = dirs s -> files s' !! p = files s !! p -> exists_in s' p = exists_in s p.
Proof. unfold exists_in. by intros -> ->. Qed.

Lemma generate_Return w s g s1 :
  generate w s = (Return g, s1) -> files s1 = files s /\ dirs s1 = dirs s.
Proof.
  intros Hgen. destruct (read_only_files generate w s read_only_generate)
    as (Hfiles & Hdirs & _).
  unfold after in *. by rewrite Hgen in Hfiles, Hdirs.
Qed.

(** The first two steps of [publish]: the changelog and the line about it. *)
Lemma publish_changelog_written root md w s :
  normalised root = true -> root ∈ dirs s -> changelog_path root ∉ dirs s ->
  let s2 := add_event
              {| files := <[changelog_path root := utf8 md]> (files s);
                 dirs := dirs s; trace := trace s ++ [Wrote (changelog_path root)] |}
              (Logged (nl ++ lit "Changelog written to: " ++ changelog_path root)) in
  publish root md w s
  = bind (createDocsifySite root md) (fun siteDir => serveDocsify siteDir 3000) w s2.
Proof.
  intros Hnorm Hroot Hchangelog. cbn zeta. unfold publish.
  erewrite bind_Return; [erewrite bind_Return; [reflexivity |] |].
  - reflexivity.
  - unfold writeFileSync. rewrite (parent_dir_changelog root Hnorm).
    rewrite (bool_decide_eq_false_2 _ Hchangelog), (bool_decide_eq_true_2 _ Hroot).
    reflexivity.
Qed.

(** X19. The two outputs are not written together.  When the run gets as
    far as the changelog and the site writer then throws (a regular file at
    the place of the site directory, say), the script ends with status 1 and
    the changelog that was already written stays, with the new text. *)
Theorem changelog_survives_site_failure
    (w : World) (s s1 s3 : State) (root md : jsstring) (e : Exn) :
  generate w s = (Return (root, md), s1) ->
  normalised root = true -> root ∈ dirs s -> changelog_path root ∉ dirs s ->
  createDocsifySite root md w
    (add_event
       {| files := <[changelog_path root := utf8 md]> (files s1);
          dirs := dirs s1; trace := trace s1 ++ [Wrote (changelog_path root)] |}
       (Logged (nl ++ lit "Changelog written to: " ++ changelog_path root)))
  = (Throw e, s3) ->
  outcome script w s = Exit 1
  /\ files (after script w s) !! changelog_path root = Some (utf8 md).
Proof.
  intros Hgen Hnorm Hroot Hchangelog Hsite.
  destruct (generate_Return _ _ _ _ Hgen) as [Hfiles Hdirs].
  assert (main w s = (Throw e, s3)) as Hmain.
  { rewrite main_is_generate_then_publish.
    erewrite bind_Return by exact Hgen. cbn [fst snd].
    rewrite publish_changelog_written by (by rewrite ?Hdirs).
    by erewrite bind_Throw by exact Hsite. }
  unfold outcome, after. rewrite (script_catches _ _ _ _ Hmain).
  split; [done |]. cbn [snd add_event files].
  match type of Hsite with
  | createDocsifySite _ _ _ ?s2 = _ =>
      pose proof (createDocsifySite_other_files root md w s2 (changelog_path root)
                    (changelog_not_readme root) (changelog_not_index root)) as Hframe
  end.
  unfold after in Hframe. rewrite Hsite in Hframe. cbn [snd] in Hframe.
  rewrite Hframe. cbn [add_event files]. by rewrite lookup_insert_eq.
Qed.

Lemma changelog_survives_site_failure_witness :
  let s := {| files := {[ lit "/repo/.diffgen_site" := utf8 (lit "not a directory") ]};
              dirs := {[ lit "/repo" ]}; trace := [] |} in
  outcome script sample_world s = Exit 1
  /\ files (after script sample_world s) !! lit "/repo/CHANGELOG.generated.md"
     = Some (utf8 sample_changelog)
  /\ files (after script sample_world s) !! lit "/repo/.diffgen_site/README.md" = None.
Proof.
  intros s.
  pose (s1 := after generate sample_world s).
  pose (s2 := add_event
       {| files := <[changelog_path (lit "/repo") := utf8 sample_changelog]> (files s1);
          dirs := dirs s1;
          trace := trace s1 ++ [Wrote (changelog_path (lit "/repo"))] |}
       (Logged (nl ++ lit "Changelog written to: " ++ changelog_path (lit "/repo")))).
  destruct (changelog_survives_site_failure sample_world s s1 s2
              (lit "/repo") sample_changelog
              (SystemError ENOTDIR (lit "open") (readme_path (lit "/repo"))))
    as [Hexit Hchangelog].
  - vm_compute. reflexivity.
  - reflexivity.
  - apply (bool_decide_unpack _). vm_compute. exact I.
  - apply (bool_decide_unpack _). vm_compute. exact I.
  - apply createDocsifySite_ENOTDIR with (content := utf8 (lit "not a directory")).
    + vm_compute. reflexivity.
    + apply (bool_decide_unpack _). vm_compute. exact I.
    + apply (bool_decide_unpack _). vm_compute. exact I.
  - split; [exact Hexit |]. split; [exact Hchangelog |]. vm_compute. reflexivity.
Defined.

(** X20. Once the Markdown has been generated, the rest of the run cannot
    fail on an ordinary working tree: when the repository root is a
    directory, the changelog and the readme are not directories and the site
    directory is absent or a directory, the script ends normally, with the
    changelog and the readme holding the Markdown, the site directory in
    place and a shell that was missing created. *)
Theorem script_succeeds_after_generation
    (w : World) (s s1 : State) (root md : jsstring) :
  generate w s = (Return (root, md), s1) ->
  normalised root = true ->
  root ∈ dirs s ->
  changelog_path root ∉ dirs s ->
  (site_dir root ∈ dirs s) \/ exists_in s (site_dir root) = false ->
  readme_path root ∉ dirs s ->
  outcome script w s = Return tt
  /\ files (after script w s) !! changelog_path root = Some (utf8 md)
  /\ files (after script w s) !! readme_path root = Some (utf8 md)
  /\ site_dir root ∈ dirs (after script w s)
  /\ (exists_in s (index_html_path root) = false ->
      files (after script w s) !! index_html_path root = Some (utf8 index_html)).
Proof.
  intros Hgen Hnorm Hroot Hchangelog Hsite Hreadme.
  destruct (generate_Return _ _ _ _ Hgen) as [Hfiles Hdirs].
  set (s2 := add_event
       {| files := <[changelog_path root := utf8 md]> (files s1);
          dirs := dirs s1; trace := trace s1 ++ [Wrote (changelog_path root)] |}
       (Logged (nl ++ lit "Changelog written to: " ++ changelog_path root))).
  assert (forall p, p <> changelog_path root -> exists_in s2 p = exists_in s p)
    as Hsame.
  { intros p Hp. apply exists_in_same; [done |]. cbn [s2 add_event files].
    by rewrite lookup_insert_ne, Hfiles. }
  destruct (createDocsifySite_on_clean_tree w s2 root md) as (s3 & Hrun & Hdir & Hmd & Hshell).
  { done. }
  { cbn [s2 add_event dirs]. by rewrite Hdirs. }
  { cbn [s2 add_event dirs]. rewrite Hdirs, Hsame; [done |].
    apply not_eq_sym, changelog_not_site_dir. }
  { cbn [s2 add_event dirs]. by rewrite Hdirs. }
  pose proof (serveDocsify_run w s3 (site_dir root) 3000)
    as (Hserve & Hserve_files & Hserve_dirs & _).
  unfold outcome, after in Hserve, Hserve_files, Hserve_dirs.
  destruct (serveDocsify (site_dir root) 3000 w s3) as [o s4] eqn:Hs4.
  cbn [fst snd] in Hserve, Hserve_files, Hserve_dirs. subst o.
  assert (main w s = (Return tt, s4)) as Hmain.
  { rewrite main_is_generate_then_publish.
    erewrite bind_Return by exact Hgen. cbn [fst snd].
    rewrite publish_changelog_written by (by rewrite ?Hdirs).
    by erewrite bind_Return by exact Hrun. }
  unfold outcome, after, script, try_catch. rewrite Hmain. cbn [fst snd].
  rewrite Hserve_files, Hserve_dirs. split; [done |]. split; [| split; [| split]].
  - pose proof (createDocsifySite_other_files root md w s2 (changelog_path root)
                  (changelog_not_readme root) (changelog_not_index root)) as Hframe.
    unfold after in Hframe. rewrite Hrun in Hframe. cbn [snd] in Hframe.
    rewrite Hframe. cbn [s2 add_event files]. by rewrite lookup_insert_eq.
  - exact Hmd.
  - exact Hdir.
  - intros Hnone. apply Hshell. rewrite Hsame; [done |].
    apply not_eq_sym, changelog_not_index.
Qed.

Lemma script_succeeds_after_generation_witness :
  outcome script sample_world sample_state = Return tt
  /\ files (after script sample_world sample_state) !! lit "/repo/CHANGELOG.generated.md"
     = Some (utf8 sample_changelog)
  /\ files (after script sample_world sample_state) !! lit "/repo/.diffgen_site/index.html"
     = Some (utf8 index_html).
Proof.
  destruct (script_succeeds_after_generation sample_world sample_state
              (after generate sample_world sample_state)
              (lit "/repo") sample_changelog)
    as (Hreturn & Hchangelog & _ & _ & Hshell).
  - vm_compute. reflexivity.
  - reflexivity.
  - apply (bool_decide_unpack _). vm_compute. exact I.
  - apply (bool_decide_unpack _). vm_compute. exact I.
  - right. vm_compute. reflexivity.
  - apply (bool_decide_unpack _). vm_compute. exact I.
  - split; [exact Hreturn |]. split; [exact Hchangelog |].
    apply Hshell. vm_compute. reflexivity.
Defined.

(** ** What a run never does *)

Section Avoids.
Variable P : Event -> bool.

Lemma avoids_ret {A} (a : A) : avoids P (ret a).
Proof. intros w s. exists []. cbn. by rewrite app_nil_r. Qed.

Lemma avoids_throw {A} (e : Exn) : avoids P (@throw A e).
Proof. intros w s. exists []. cbn. by rewrite app_nil_r. Qed.

Lemma avoids_process_exit {A} (c : Z) : avoids P (@process_exit A c).
Proof. intros w s. exists []. cbn. by rewrite app_nil_r. Qed.

Lemma avoids_ask {A} (f : World -> A) : avoids P (ask f).
Proof. intros w s. exists []. cbn. by rewrite app_nil_r. Qed.

Lemma avoids_existsSync p : avoids P (existsSync p).
Proof. intros w s. exists []. cbn. by rewrite app_nil_r. Qed.

Lemma avoids_settle {A} (r : Exn + A) : avoids P (settle r).
Proof. destruct r; [apply avoids_throw | apply avoids_ret]. Qed.

Lemma avoids_emit (e : Event) : P e = false -> avoids P (emit e).
Proof. intros He w s. exists [e]. cbn. by rewrite He. Qed.

Lemma avoids_bind {A B} (m : M A) (k : A -> M B) :
  avoids P m -> (forall a, avoids P (k a)) -> avoids P (bind m k).
Proof.
  intros Hm Hk w s. destruct (Hm w s) as (evs & Hs & Hevs).
  unfold after, bind in *. destruct (m w s) as [[a|e|c] s1]; cbn [snd] in Hs;
    try (by exists evs).
  destruct (Hk a w s1) as (evs' & Hs' & Hevs'). exists (evs ++ evs').
  unfold after in Hs'.
  rewrite Hs', Hs, <- app_assoc, existsb_app, Hevs, Hevs'. done.
Qed.

Lemma avoids_try_catch {A} (m : M A) (h : Exn -> M A) :
  avoids P m -> (forall e, avoids P (h e)) -> avoids P (try_catch m h).
Proof.
  intros Hm Hh w s. destruct (Hm w s) as (evs & Hs & Hevs).
  unfold after, try_catch in *. destruct (m w s) as [[a|e|c] s1]; cbn [snd] in Hs;
    try (by exists evs).
  destruct (Hh e w s1) as (evs' & Hs' & Hevs'). exists (evs ++ evs').
  unfold after in Hs'.
  rewrite Hs', Hs, <- app_assoc, existsb_app, Hevs, Hevs'. done.
Qed.

Lemma avoids_mkdirSync p : P (MadeDir p) = false -> avoids P (mkdirSync p).
Proof.
  intros Hp w s. unfold after, mkdirSync.
  repeat case_match; cbn [snd trace];
    first [exists []; cbn; by rewrite app_nil_r | exists [MadeDir p]; cbn; by rewrite Hp].
Qed.

Lemma avoids_writeFileSync p data : P (Wrote p) = false -> avoids P (writeFileSync p data).
Proof.
  intros Hp w s. unfold after, writeFileSync.
  repeat case_match; cbn [snd trace];
    first [exists []; cbn; by rewrite app_nil_r | exists [Wrote p]; cbn; by rewrite Hp].
Qed.
End Avoids.

Ltac avoids_tac :=
  repeat first
    [ apply avoids_ret | apply avoids_throw | apply avoids_process_exit
    | apply avoids_ask | apply avoids_existsSync | apply avoids_settle
    | apply avoids_emit; reflexivity
    | apply avoids_mkdirSync; reflexivity
    | apply avoids_writeFileSync; reflexivity
    | apply avoids_bind; [| intros]
    | apply avoids_try_catch; [| intros]
    | match goal with
      | |- avoids _ (if ?b then _ else _) => destruct b
      | |- avoids _ (match ?x with _ => _ end) => destruct x
      | |- avoids _ (let '(_, _) := ?x in _) => destruct x
      end
    | assumption ].

Lemma avoids_mapM P {A B} (f : A -> M B) (l : list A) :
  (forall a, avoids P (f a)) -> avoids P (mapM f l).
Proof. intros Hf. induction l; cbn [mapM]; avoids_tac; apply Hf. Qed.

Lemma avoids_first_existing P candidates : avoids P (first_existing candidates).
Proof. induction candidates; cbn [first_existing]; avoids_tac. Qed.

Ltac avoids_script :=
  intros;
  unfold script, main, gather, publish, ensureGitRepository, selectByTags,
    selectByCommits, selectByTimeRange, collectGitHistoryText, callAzureOpenAI,
    do_fetch, createDocsifySite, serveDocsify, resolveDocsifyBin, execSync,
    execSync_wc_l, prompt_list, prompt_text, spawn, console_log, console_error;
  avoids_tac;
  first [ apply avoids_mapM; intros; unfold commit_choice, Date_toISOString;
          avoids_tac
        | apply avoids_first_existing ].

(** Before the completion call a run sends and writes nothing; after it, it
    sends and asks nothing. *)
Lemma avoids_output_gather : avoids is_output gather.
Proof. avoids_script. Qed.

Lemma avoids_exchange_publish root md : avoids is_exchange (publish root md).
Proof. avoids_script. Qed.

Lemma main_is_gather_then_complete :
  same_run main
    (bind gather (fun g =>
       bind (callAzureOpenAI (snd g)) (fun md => publish (fst g) md))).
Proof.
  intros w s. unfold main, gather, publish.
  cbv beta iota delta [bind].
  repeat (run_step; try reflexivity).
Qed.

Lemma callAzureOpenAI_trace historyMarkdown w s :
  trace (after (callAzureOpenAI historyMarkdown) w s)
  = trace s
    ++ (if key_missing (env_OPENAI_API_KEY w) then [key_question] else [])
    ++ (if key_missing (credential w) then []
        else [Fetched (request_of w historyMarkdown)]).
Proof.
  rewrite <- (callAzureOpenAI_events historyMarkdown w s).
  destruct (read_only_callAzureOpenAI historyMarkdown w s) as (evs & -> & _).
  unfold new_events. cbn [trace]. by rewrite drop_app_length.
Qed.

Lemma script_trace_shape (w : World) (s : State) :
  exists before sent later,
    trace (after script w s) = trace s ++ before ++ sent ++ later
    /\ existsb is_output before = false
    /\ (sent = []
        \/ exists root history s1,
             gather w s = (Return (root, history), s1)
             /\ key_missing (credential w) = false
             /\ sent = [Fetched (request_of w history)])
    /\ existsb is_exchange later = false.
Proof.
  assert (forall e (t : State),
            (bind (if truthy_str (Exn_message e) then console_error (Exn_message e)
                   else emit (ComplainedOf e)) (fun _ => @process_exit unit 1) w t).2
            = add_event t (if truthy_str (Exn_message e)
                           then Complained (Exn_message e) else ComplainedOf e))
    as Hcatch.
  { intros e t. unfold bind, console_error, emit, process_exit.
    by destruct (truthy_str (Exn_message e)). }
  unfold after, script, try_catch. rewrite main_is_gather_then_complete.
  destruct (avoids_output_gather w s) as (evs1 & Hgather & Hevs1).
  unfold after in Hgather. unfold bind at 1.
  destruct (gather w s) as [[[root history]|e|c] s1] eqn:Hgathered;
    cbn [fst snd] in *.
  2: { rewrite Hcatch. cbn [add_event trace]. rewrite Hgather.
       exists (evs1 ++ [if truthy_str (Exn_message e)
                        then Complained (Exn_message e) else ComplainedOf e]), [], [].
       rewrite !app_nil_r, <- app_assoc, existsb_app, Hevs1.
       repeat split; [by destruct (truthy_str (Exn_message e)) | by left]. }
  2: { exists evs1, [], []. rewrite !app_nil_r. repeat split; [done | done | by left]. }
  pose proof (callAzureOpenAI_trace history w s1) as Hcall. unfold after in Hcall.
  set (asked := if key_missing (env_OPENAI_API_KEY w) then [key_question] else [])
    in Hcall.
  set (sent := if key_missing (credential w) then []
               else [Fetched (request_of w history)]) in Hcall.
  assert (existsb is_output asked = false) as Hasked
    by (subst asked; destruct (key_missing (env_OPENAI_API_KEY w)); reflexivity).
  assert (sent = []
          \/ exists root' history' s1',
               (Return (root, history), s1) = (Return (root', history'), s1')
               /\ key_missing (credential w) = false
               /\ sent = [Fetched (request_of w history')]) as Hsent
    by (subst sent; destruct (key_missing (credential w)); eauto 7).
  unfold bind at 1.
  destruct (callAzureOpenAI history w s1) as [[md|e|c] s2]; cbn [fst snd] in *.
  2: { rewrite Hcatch. cbn [add_event trace]. rewrite Hcall, Hgather.
       exists (evs1 ++ asked), sent,
         [if truthy_str (Exn_message e)
          then Complained (Exn_message e) else ComplainedOf e].
       rewrite <- !app_assoc, existsb_app, Hevs1, Hasked.
       repeat split; [done | by destruct (truthy_str (Exn_message e))]. }
  2: { exists (evs1 ++ asked), sent, []. rewrite Hcall, Hgather, app_nil_r.
       rewrite <- !app_assoc, existsb_app, Hevs1, Hasked. by repeat split. }
  destruct (avoids_exchange_publish root md w s2) as (evs3 & Hpublish & Hevs3).
  unfold after in Hpublish.
  destruct (publish root md w s2) as [[[]|e|c] s3]; cbn [fst snd] in *.
  - exists (evs1 ++ asked), sent, evs3. rewrite Hpublish, Hcall, Hgather.
    rewrite <- !app_assoc, existsb_app, Hevs1, Hasked. by repeat split.
  - rewrite Hcatch. cbn [add_event trace]. rewrite Hpublish, Hcall, Hgather.
    exists (evs1 ++ asked), sent,
      (evs3 ++ [if truthy_str (Exn_message e)
                then Complained (Exn_message e) else ComplainedOf e]).
    rewrite <- !app_assoc, !existsb_app, Hevs1, Hasked, Hevs3.
    repeat split; [done | by destruct (truthy_str (Exn_message e))].
  - exists (evs1 ++ asked), sent, evs3. rewrite Hpublish, Hcall, Hgather.
    rewrite <- !app_assoc, existsb_app, Hevs1, Hasked. by repeat split.
Qed.

(** X21. The order of a run, in every world: first come events among which
    there is no request and no write; then at most one request; and after
    the request nothing is asked and nothing more is sent.  So a run sends at
    most one request, all questions come before it and all writing after
    it. *)
Theorem script_sends_one_request_at_most (w : World) (s : State) :
  exists before sent later,
    trace (after script w s) = trace s ++ before ++ sent ++ later
    /\ existsb is_output before = false
    /\ (sent = []
        \/ exists root history s1,
             gather w s = (Return (root, history), s1)
             /\ key_missing (credential w) = false
             /\ sent = [Fetched (request_of w history)])
    /\ existsb is_exchange later = false.
Proof. exact (script_trace_shape w s). Qed.

(** ** From the range to the request *)

Lemma collectGitHistoryText_Return range w s history s' :
  collectGitHistoryText range w s = (Return history, s') ->
  history = history_of w range.
Proof.
  unfold collectGitHistoryText, bind. rewrite !execSync_run.
  destruct (exit_status (run w (log_command _ _)) =? 0)%Z; [| done].
  destruct (exit_status (run w (files_command _ _)) =? 0)%Z; [| done].
  destruct (exit_status (run w (stats_command _ _)) =? 0)%Z; [| done].
  unfold ret. intros [= <- _]. rewrite !section_body_str_or.
  unfold history_of, headed_sections, join, nl. cbn [map concat fst snd].
  rewrite !app_nil_r, <- !app_assoc. reflexivity.
Qed.

Lemma gather_Return w s root history s1 :
  gather w s = (Return (root, history), s1) ->
  exists range s0, collectGitHistoryText range w s0 = (Return history, s1).
Proof.
  unfold gather. cbv beta iota delta [bind].
  repeat (run_step; try done).
  unfold ret. intros [= _ <- <-]. eauto.
Qed.

(** X22. What the model is asked is always the history of a range: every
    request a run of the script sends carries, after the fixed instructions,
    a history text with the three sections of some range, none of them
    empty, and the key in its [api-key] header is not the empty string. *)
Theorem script_request_carries_history (w : World) (s : State) (req : Request) :
  Fetched req ∈ trace (after script w s) ->
  Fetched req ∉ trace s ->
  exists range,
    prompt_of req = JStr (instructions ++ history_of w range)
    /\ section_body (stdout (run w (log_command (from range) (to range))))
                    (lit "(No commits)") <> []
    /\ section_body (stdout (run w (files_command (from range) (to range))))
                    (lit "(No file changes)") <> []
    /\ section_body (stdout (run w (stats_command (from range) (to range))))
                    (lit "(No stats)") <> []
    /\ (exists key, header req (lit "api-key") = Some key /\ key <> []).
Proof.
  intros Hin Hnew.
  destruct (script_trace_shape w s)
    as (before & sent & later & Htrace & Hbefore & Hsent & Hlater).
  rewrite Htrace in Hin. rewrite !elem_of_app in Hin.
  assert (forall evs P, existsb P evs = false -> P (Fetched req) = true ->
                        Fetched req ∉ evs) as Hnone.
  { intros evs P Hevs HP Hmem. apply list_elem_of_In in Hmem.
    assert (existsb P evs = true) as Htrue by (apply existsb_exists; eauto).
    congruence. }
  destruct Hin as [Hin | [Hin | [Hin | Hin]]]; [done | | | ].
  - by destruct (Hnone _ _ Hbefore eq_refl).
  - destruct Hsent as [-> | (root & history & s1 & Hgather & Hkey & ->)].
    + by apply elem_of_nil in Hin.
    + apply list_elem_of_singleton in Hin. injection Hin as ->.
      destruct (gather_Return _ _ _ _ _ Hgather) as (range & s0 & Hcollect).
      apply collectGitHistoryText_Return in Hcollect as ->.
      exists range. split; [| split; [| split; [| split]]].
      * unfold prompt_of, request_of, completion_request, payload. cbn.
        by rewrite basePrompt_tail.
      * by apply section_body_nonempty.
      * by apply section_body_nonempty.
      * by apply section_body_nonempty.
      * unfold request_of, completion_request, header. cbn.
        destruct (credential w) as [[|u key]|]; try done.
        by exists (u :: key).
  - by destruct (Hnone _ _ Hlater eq_refl).
Qed.

Lemma script_request_carries_history_witness :
  let req := request_of sample_world
               (history_of sample_world {| from := lit "v1.0.0"; to := lit "v1.1.0" |}) in
  Fetched req ∈ trace (after script sample_world sample_state)
  /\ exists range, prompt_of req = JStr (instructions ++ history_of sample_world range).
Proof.
  intros req.
  assert (Fetched req ∈ trace (after script sample_world sample_state)) as Hsent.
  { apply list_elem_of_lookup. exists 8%nat. vm_compute. reflexivity. }
  split; [exact Hsent |].
  destruct (script_request_carries_history sample_world sample_state req Hsent)
    as (range & Hprompt & _).
  { apply not_elem_of_nil. }
  by exists range.
Defined.
